(** * urban-online-workflow: the backend worker's scenario-raster engine

    A shallow embedding of [backend-worker/worker.py]: the pixel-aligned
    serviceshed extent of [_create_new_lulc], the wallpaper tiling loop of
    [wallpaper_parcel], [fill_parcel], [pixelcounts_under_parcel],
    [_reproject_to_nlud] and the job loop of [do_work].

    Conventions.
    - Map coordinates and pixel sizes are Python floats in the source.  They
      are modelled exactly, as integers; Python's [%] is the floored
      remainder (sign of the divisor), which is [Z.modulo].  Rounding of
      floats is not modelled.
    - Rasters and numpy arrays are lists of rows.
    - Python dicts are [gmap]s; exceptions are values of [py_exn]. *)

From stdpp Require Import gmap strings list fin_maps sorting.
From Stdlib Require Import ZArith Lia QArith Qround Lqa.

Local Open Scope Z_scope.

(** ** Exceptions raised by the worker or by the libraries it calls *)

Inductive py_exn : Type :=
  | ValueError (msg : string)
  | KeyError (key : string)
  | AssertionError
  | ZeroDivisionError
  | LibraryError (msg : string).

(** A call either raises or returns. *)
Definition result (A : Type) : Type := py_exn + A.

Definition Raise {A : Type} (e : py_exn) : result A := inl e.
Definition Return {A : Type} (a : A) : result A := inr a.

#[global] Instance result_ret : MRet result := fun A a => inr a.
#[global] Instance result_bind : MBind result := fun A B f m =>
  match m with
  | inl e => inl e
  | inr a => f a
  end.

(** ** The serviceshed extent of [_create_new_lulc] *)

Module Grid.

(** [geometry.bounds]: (minx, miny, maxx, maxy). *)
Record bounds : Type := Bounds {
  minx : Z;
  miny : Z;
  maxx : Z;
  maxy : Z
}.

(** A shapely geometry as far as these definitions look at it: its
    bounding box.  A geometry parsed from WKT carries no projection. *)
Record geometry : Type := Geometry {
  geom_bounds : bounds
}.

(** [LULC_ORIGIN_X], [LULC_ORIGIN_Y], [PIXELSIZE_X], [PIXELSIZE_Y]: read from
    the base raster when the module is loaded. *)
Record raster_info : Type := RasterInfo {
  LULC_ORIGIN_X : Z;
  LULC_ORIGIN_Y : Z;
  PIXELSIZE_X : Z;
  PIXELSIZE_Y : Z
}.

(** [LARGEST_SERVICESHED = 1600]. *)
Definition LARGEST_SERVICESHED : Z := 1600.

(** [shapely.wkt.loads] of the WKT of a parcel that is an axis-parallel
    rectangle, given by its bounds; the coordinates are those of the
    string. *)
Definition wkt_loads_box (b : bounds) : geometry :=
  Geometry b.

(** [geom.buffer(r)] of an axis-parallel rectangle: its four sides are
    offset by [r], so the bounding box grows by [r] on every side.  This is
    exact for rectangles only: around a vertex shapely draws a polyline
    fillet, which reaches a little less far than [r]; parcels of any shape
    are the subject of [Serviceshed] below. *)
Definition buffer (g : geometry) (r : Z) : geometry :=
  Geometry
    (Bounds (minx (geom_bounds g) - r) (miny (geom_bounds g) - r)
            (maxx (geom_bounds g) + r) (maxy (geom_bounds g) + r)).

(** [a % b] on floats: the floored remainder, which has the sign of [b];
    [ZeroDivisionError] when [b] is zero.  The integers stand for
    integer-valued floats below 2^53, on which [%], [+] and [-] are exact;
    on other floats the remainder is rounded and can come out as [b]
    itself. *)
Definition float_mod (a b : Z) : result Z :=
  if decide (b = 0) then Raise ZeroDivisionError else Return (a mod b).

(** Lines 340-343 of [_create_new_lulc]:
<<
    buf_minx -= abs((buf_minx - LULC_ORIGIN_X) % PIXELSIZE_X)
    buf_miny -= abs((buf_miny - LULC_ORIGIN_Y) % PIXELSIZE_Y)
    buf_maxx += PIXELSIZE_X - abs((buf_maxx - LULC_ORIGIN_X) % PIXELSIZE_X)
    buf_maxy += PIXELSIZE_Y - abs((buf_maxy - LULC_ORIGIN_Y) % PIXELSIZE_Y)
>> *)
Definition snap_edges (ri : raster_info) (b : bounds) : result bounds :=
  r_minx ← float_mod (minx b - LULC_ORIGIN_X ri) (PIXELSIZE_X ri);
  let buf_minx := minx b - Z.abs r_minx in
  r_miny ← float_mod (miny b - LULC_ORIGIN_Y ri) (PIXELSIZE_Y ri);
  let buf_miny := miny b - Z.abs r_miny in
  r_maxx ← float_mod (maxx b - LULC_ORIGIN_X ri) (PIXELSIZE_X ri);
  let buf_maxx := maxx b + (PIXELSIZE_X ri - Z.abs r_maxx) in
  r_maxy ← float_mod (maxy b - LULC_ORIGIN_Y ri) (PIXELSIZE_Y ri);
  let buf_maxy := maxy b + (PIXELSIZE_Y ri - Z.abs r_maxy) in
  Return (Bounds buf_minx buf_miny buf_maxx buf_maxy).

(** [_create_new_lulc] up to the call of [warp_raster]: the geometry that is
    buffered, the buffered geometry, and the [target_bb] handed to the
    warp. *)
Record extent_trace : Type := ExtentTrace {
  parcel_geom : geometry;
  buffered_parcel_geom : geometry;
  target_bb : bounds
}.

(** Lines 333-343 for a rectangular parcel and an arbitrary buffer
    radius. *)
Definition serviceshed_extent (ri : raster_info) (radius : Z)
    (parcel_wkt_epsg3857 : bounds) : result extent_trace :=
  let parcel_geom := wkt_loads_box parcel_wkt_epsg3857 in
  let buffered_parcel_geom := buffer parcel_geom radius in
  bb ← snap_edges ri (geom_bounds buffered_parcel_geom);
  Return (ExtentTrace parcel_geom buffered_parcel_geom bb).

(** Lines 333-343 for a rectangular parcel, with the radius the source
    uses. *)
Definition create_new_lulc_extent (ri : raster_info)
    (parcel_wkt_epsg3857 : bounds) : result extent_trace :=
  serviceshed_extent ri LARGEST_SERVICESHED parcel_wkt_epsg3857.

(** [outer] contains [inner] on all four edges. *)
Definition contains (outer inner : bounds) : Prop :=
  minx outer <= minx inner /\ miny outer <= miny inner /\
  maxx inner <= maxx outer /\ maxy inner <= maxy outer.

(** An edge lies on the pixel grid: its offset from the origin is an exact
    multiple of the pixel size. *)
Definition on_grid (origin pixelsize coord : Z) : Prop :=
  (coord - origin) mod pixelsize = 0.

Definition aligned (ri : raster_info) (b : bounds) : Prop :=
  on_grid (LULC_ORIGIN_X ri) (PIXELSIZE_X ri) (minx b) /\
  on_grid (LULC_ORIGIN_Y ri) (PIXELSIZE_Y ri) (miny b) /\
  on_grid (LULC_ORIGIN_X ri) (PIXELSIZE_X ri) (maxx b) /\
  on_grid (LULC_ORIGIN_Y ri) (PIXELSIZE_Y ri) (maxy b).

End Grid.

(** ** The warp of [_create_new_lulc], for parcels of any shape *)

Module Serviceshed.

Import Grid.

(** Spatial references as [IsSame] tells them apart: EPSG:3857, the Albers
    equal-area projection the module sets up, and any other. *)
Inductive srs : Type :=
  | WebMercator
  | AlbersEqualArea
  | OtherSrs (wkt : string).

#[global] Instance srs_eq_dec : EqDecision srs.
Proof. solve_decision. Defined.

(** [pygeoprocessing.get_raster_info(LULC_RASTER_PATH)] as far as the module
    reads it: 'projection_wkt', and the origin and pixel size of the grid. *)
Record lulc_raster_info : Type := LulcRasterInfo {
  projection_wkt : srs;
  grid_info : raster_info
}.

(** The globals the module sets from the base raster when it is loaded. *)
Record module_globals : Type := ModuleGlobals {
  LULC_SRS_WKT : srs;
  LULC_GRID : raster_info
}.

(** Lines 69-73 and 87-88: the module takes the projection and the grid of
    the base raster, and does not load unless the projection is web
    mercator:
<<
    assert _LULC_SRS.IsSame(_WEB_MERCATOR_SRS), (
        "LULC must have been reprojected to web mercator")
>> *)
Definition load_module (_LULC_RASTER_INFO : lulc_raster_info)
    : result module_globals :=
  let LULC_SRS_WKT := projection_wkt _LULC_RASTER_INFO in
  if decide (LULC_SRS_WKT = WebMercator)
  then Return (ModuleGlobals LULC_SRS_WKT (grid_info _LULC_RASTER_INFO))
  else Raise AssertionError.

(** A parcel of any shape as far as [_create_new_lulc] looks at it:
    [parcel_geom.bounds], and [parcel_geom.buffer(r).bounds] as shapely
    computes it. *)
Record parcel : Type := Parcel {
  parcel_bounds : bounds;
  buffer_bounds : Z -> bounds
}.

(** The parcel that is the axis-parallel rectangle with bounds [b]. *)
Definition box (b : bounds) : parcel :=
  Parcel b (fun r => geom_bounds (buffer (wkt_loads_box b) r)).

(** Lines 333-343: the coordinates of the parsed WKT go to [buffer] as they
    are, and the bounds of the buffer are snapped. *)
Definition create_new_lulc_target_bb (ri : raster_info) (parcel_geom : parcel)
    : result bounds :=
  let buffered_bounds := buffer_bounds parcel_geom LARGEST_SERVICESHED in
  snap_edges ri buffered_bounds.




End Serviceshed.

(** ** The tiling step of [wallpaper_parcel] *)

Module Tiler.

Local Open Scope nat_scope.

(** A two-dimensional numpy array, as the list of its rows. *)
Abbreviation ndarray := (list (list Z)).

(** [a.shape[0]] and [a.shape[1]]. *)
Definition shape0 (a : ndarray) : nat := length a.
Definition shape1 (a : ndarray) : nat :=
  match a with
  | [] => 0
  | r :: _ => length r
  end.

(** An array of shape [h] x [w]. *)
Definition has_shape (h w : nat) (a : ndarray) : Prop :=
  length a = h /\ Forall (fun r => length r = w) a.

(** [x % d] and [x // d] on non-negative integers. *)
Definition int_mod (x d : nat) : result nat :=
  if decide (d = 0) then Raise ZeroDivisionError else Return (x mod d).
Definition int_floordiv (x d : nat) : result nat :=
  if decide (d = 0) then Raise ZeroDivisionError else Return (x / d).

(** [numpy.tile(a, (ry, rx))]. *)
Definition np_tile (a : ndarray) (ry rx : nat) : ndarray :=
  concat (replicate ry (map (fun r => concat (replicate rx r)) a)).

(** [a[y:y+h, x:x+w]] for non-negative bounds: a slice stops at the end of
    the array. *)
Definition slice2 (a : ndarray) (y h x w : nat) : ndarray :=
  map (fun r => take w (drop x r)) (take h (drop y a)).

(** Lines 471-487 of [wallpaper_parcel]: the part of the wallpaper that
    covers the window at ([xoff], [yoff]). *)
Definition wallpaper_tiled (wallpaper_array : ndarray)
    (xoff yoff win_xsize win_ysize : nat) : result ndarray :=
  wallpaper_x ← int_mod xoff (shape1 wallpaper_array);
  wallpaper_y ← int_mod yoff (shape0 wallpaper_array);
  qx ← int_floordiv (wallpaper_x + win_xsize) (shape1 wallpaper_array);
  let wallpaper_x_repeats := 1 + qx in
  qy ← int_floordiv (wallpaper_y + win_ysize) (shape0 wallpaper_array);
  let wallpaper_y_repeats := 1 + qy in
  Return (slice2 (np_tile wallpaper_array wallpaper_y_repeats wallpaper_x_repeats)
            wallpaper_y win_ysize wallpaper_x win_xsize).

(** The array [numpy.tile] builds in that window, before it is sliced. *)
Definition wallpaper_unsliced (wallpaper_array : ndarray)
    (xoff yoff win_xsize win_ysize : nat) : ndarray :=
  let wallpaper_x := xoff mod shape1 wallpaper_array in
  let wallpaper_y := yoff mod shape0 wallpaper_array in
  np_tile wallpaper_array
    (1 + (wallpaper_y + win_ysize) / shape0 wallpaper_array)
    (1 + (wallpaper_x + win_xsize) / shape1 wallpaper_array).

(** [numpy.where(parcel_mask_array == 1, wallpaper_tiled, base_array)] on
    arrays of one shape. *)
Definition np_where_eq1 (mask t b : ndarray) : ndarray :=
  zip_with (fun mrow tb => zip_with (fun (m : Z) (p : Z * Z) => if decide (m = 1%Z) then p.1 else p.2)
                             mrow (zip tb.1 tb.2))
           mask (zip t b).

(** One iteration of the loop: the array written to the target band at
    ([xoff], [yoff]). *)
Definition wallpaper_block (wallpaper_array parcel_mask_array base_array : ndarray)
    (xoff yoff win_xsize win_ysize : nat) : result ndarray :=
  tiled ← wallpaper_tiled wallpaper_array xoff yoff win_xsize win_ysize;
  Return (np_where_eq1 parcel_mask_array tiled base_array).

(** Concatenation of blocks: side by side, and one below the other. *)
Definition hstack (a b : ndarray) : ndarray := zip_with app a b.
Definition vstack (a b : ndarray) : ndarray := a ++ b.

(** A band of [h] rows tiled window by window, the windows having the widths
    [ws] from left to right, and the results put side by side. *)
Fixpoint tile_band (wallpaper_array : ndarray) (xoff yoff : nat)
    (ws : list nat) (h : nat) : result ndarray :=
  match ws with
  | [] => Return (replicate h [])
  | w :: ws' =>
      t ← wallpaper_tiled wallpaper_array xoff yoff w h;
      rest ← tile_band wallpaper_array (xoff + w) yoff ws' h;
      Return (hstack t rest)
  end.

(** A window tiled block by block, the blocks forming a grid with column
    widths [ws] and row heights [hs], and the results concatenated. *)
Fixpoint tile_blocks (wallpaper_array : ndarray) (xoff yoff : nat)
    (ws hs : list nat) : result ndarray :=
  match hs with
  | [] => Return []
  | h :: hs' =>
      band ← tile_band wallpaper_array xoff yoff ws h;
      rest ← tile_blocks wallpaper_array xoff (yoff + h) ws hs';
      Return (vstack band rest)
  end.

(** The value the wallpaper has at the absolute pixel ([y], [x]). *)
Definition wallpaper_at (wallpaper_array : ndarray) (y x : nat) : Z :=
  (wallpaper_array !!! (y mod shape0 wallpaper_array))
    !!! (x mod shape1 wallpaper_array).

(** The wallpaper over the window at ([xoff], [yoff]), pixel by pixel. *)
Definition wallpaper_window (wallpaper_array : ndarray)
    (xoff yoff win_xsize win_ysize : nat) : ndarray :=
  map (fun i => map (fun j => wallpaper_at wallpaper_array (yoff + i) (xoff + j))
                    (seq 0 win_xsize))
      (seq 0 win_ysize).

End Tiler.

(** ** [pixelcounts_under_parcel]: the tabulation under the mask *)

Module Stats.

Import Tiler.
Local Open Scope nat_scope.

(** [a.shape]. *)
Definition shape (a : ndarray) : nat * nat := (shape0 a, shape1 a).

(** [array[parcel_mask == 1]]: the values of [array] where the mask is 1, in
    row-major order. *)
Definition masked_row (arow mrow : list Z) : list Z :=
  (filter (fun p : Z * Z => p.2 = 1%Z) (zip arow mrow)).*1.
Definition masked_select (array parcel_mask : ndarray) : list Z :=
  concat (zip_with masked_row array parcel_mask).

(** The runs of a sorted list: each value with the length of its run. *)
Fixpoint runs (l : list Z) : list (Z * nat) :=
  match l with
  | [] => []
  | x :: l' =>
      match runs l' with
      | (y, c) :: r => if decide (x = y) then (y, S c) :: r else (x, 1) :: (y, c) :: r
      | [] => [(x, 1)]
      end
  end.

(** [numpy.unique(l, return_counts=True)]: the sorted distinct values and how
    often each occurs. *)
Definition np_unique_counts (l : list Z) : list Z * list nat :=
  let u := runs (merge_sort Z.le l) in (u.*1, u.*2).

(** Lines 581-586: the dict filled from [zip(values, counts)]. *)
Definition to_dict (kvs : list (Z * nat)) : gmap Z nat :=
  foldl (fun return_values kv => <[kv.1 := kv.2]> return_values) ∅ kvs.

(** Lines 576-588 of [pixelcounts_under_parcel], from the window [array] read
    from the source band and the rasterized [parcel_mask]. *)
Definition pixelcounts (array parcel_mask : ndarray) : result (gmap Z nat) :=
  if decide (shape parcel_mask = shape array) then
    let '(values_under_parcel, counts) :=
      np_unique_counts (masked_select array parcel_mask) in
    Return (to_dict (zip values_under_parcel counts))
  else Raise AssertionError.

(** The number of mask pixels equal to 1. *)
Definition count_ones (parcel_mask : ndarray) : nat :=
  length (filter (fun m : Z => m = 1%Z) (concat parcel_mask)).

(** The sum of the counts of a result. *)
Definition total (return_values : gmap Z nat) : nat :=
  sum_list (map_to_list return_values).*2.

End Stats.

(** ** [fill_parcel]: the pixels of the filled raster *)

Module Fill.

Import Tiler.
Local Open Scope nat_scope.

(** The pixels ([row], [column]) of the target grid that GDAL burns for the
    parcel under [ALL_TOUCHED=TRUE]. *)
Definition footprint : Type := nat -> nat -> bool.

(** [pygeoprocessing.rasterize(vector, target, [burn], ALL_TOUCHED)]: the
    target raster is updated in place where the parcel touches it. *)
Definition rasterize (touched : footprint) (burn : Z) (target : ndarray) : ndarray :=
  imap (fun i row => imap (fun j v => if touched i j then burn else v) row) target.

(** The pixels of the raster [_create_new_lulc] leaves behind, from the
    window of the base LULC that the warp copies (lines 345-361). *)
Definition create_new_lulc_pixels (nodata : option Z) (base_window : ndarray)
    (include_pixel_values : bool) : ndarray :=
  if include_pixel_values then base_window
  else match nodata with
       | Some n => map (map (fun _ => n)) base_window
       | None => base_window
       end.

(** Lines 394-398 of [fill_parcel]. *)
Definition fill_parcel_pixels (nodata : option Z) (base_window : ndarray)
    (touched : footprint) (fill_lulc_class : Z) : ndarray :=
  rasterize touched fill_lulc_class
    (create_new_lulc_pixels nodata base_window true).

(** The pixels of a raster with their row and column. *)
Definition indexed (a : ndarray) : list (nat * nat * Z) :=
  concat (imap (fun i row => imap (fun j v => (i, j, v)) row) a).

(** How many pixels of [a] equal [v]. *)
Definition count_value (v : Z) (a : ndarray) : nat :=
  length (filter (fun x : Z => x = v) (concat a)).

(** How many pixels of the grid of [a] the mask marks with 1. *)
Definition count_touched (touched : footprint) (a : ndarray) : nat :=
  length (filter (fun p : nat * nat * Z => touched p.1.1 p.1.2 = true) (indexed a)).

(** How many pixels of [a] outside the mask already hold [v]. *)
Definition count_untouched_value (touched : footprint) (v : Z) (a : ndarray) : nat :=
  length (filter (fun p : nat * nat * Z => touched p.1.1 p.1.2 = false /\ p.2 = v)
                 (indexed a)).

(** The pixel at ([i], [j]). *)
Definition pixel (a : ndarray) (i j : nat) : option Z :=
  row ← a !! i; row !! j.

End Fill.

(** ** The pixels of a window that lie under the mask *)

Module UnderMask.

Import Tiler.
Local Open Scope nat_scope.

(** The pixel in row [i] and column [j] has the value 1 in the mask and the
    class code [k] in the raster. *)
Definition holds_under_mask (array parcel_mask : ndarray) (k : Z) (i j : nat)
    : Prop :=
  Fill.pixel parcel_mask i j = Some 1%Z /\ Fill.pixel array i j = Some k.

(** The pixels (row, column) of a window of [h] rows and [w] columns. *)
Definition window_pixels (h w : nat) : list (nat * nat) :=
  i ← seq 0 h; (fun j => (i, j)) <$> seq 0 w.

(** How many pixels of the window lie under the mask and hold [k]. *)
Definition count_under_mask (h w : nat) (array parcel_mask : ndarray) (k : Z)
    : nat :=
  length (filter (fun p : nat * nat =>
                    Fill.pixel parcel_mask p.1 p.2 = Some 1%Z /\
                    Fill.pixel array p.1 p.2 = Some k)
                 (window_pixels h w)).

End UnderMask.

(** ** Working directories of [fill_parcel] and [wallpaper_parcel] *)

Module Workdir.

(** The directories that exist, and a computation that may create or remove
    some and may raise. *)
Definition dirs : Type := gset nat.
Definition fsM (A : Type) : Type := dirs -> result A * dirs.

#[global] Instance fsM_ret : MRet fsM := fun A a s => (Return a, s).
#[global] Instance fsM_bind : MBind fsM := fun A B f m s =>
  match m s with
  | (inl e, s') => (inl e, s')
  | (inr a, s') => f a s'
  end.

(** [tempfile.mkdtemp]: a directory that did not exist. *)
Definition mkdtemp : fsM nat :=
  fun s => let d := fresh s in (Return d, {[d]} ∪ s).

(** [shutil.rmtree(d)]. *)
Definition rmtree (d : nat) : fsM unit :=
  fun s => if decide (d ∈ s) then (Return (), s ∖ {[d]})
           else (Raise (LibraryError "FileNotFoundError"), s).

(** A library call that creates no directory: it returns, or raises [e]. *)
Definition call (outcome : option py_exn) : fsM unit :=
  fun s => (match outcome with Some e => Raise e | None => Return () end, s).

Definition OGR_GEOMETRY_TYPES : gmap string Z :=
  {[ "Polygon" := 3%Z; "MultiPolygon" := 6%Z ]}.

(** What the collaborators of [fill_parcel] do on one call. *)
Record fill_outcomes : Type := FillOutcomes {
  wkt_loads_o : option py_exn;
  parcel_geom_type : string;
  geometry_to_vector_o : option py_exn;
  create_new_lulc_o : option py_exn;
  rasterize_o : option py_exn
}.

(** [fill_parcel], lines 385-400. *)
Definition fill_parcel (o : fill_outcomes) : fsM unit :=
  _ ← call (wkt_loads_o o);
  working_dir ← mkdtemp;
  _ ← (match OGR_GEOMETRY_TYPES !! parcel_geom_type o with
       | Some _ => call None
       | None => call (Some (KeyError (parcel_geom_type o)))
       end);
  _ ← call (geometry_to_vector_o o);
  _ ← call (create_new_lulc_o o);
  _ ← call (rasterize_o o);
  rmtree working_dir.

(** What the collaborators of [wallpaper_parcel] do on one call. *)
Record wallpaper_outcomes : Type := WallpaperOutcomes {
  source_raster_info_o : option py_exn;
  fill_o : fill_outcomes;
  mask_raster_info_o : option py_exn;
  warp_under_parcel_o : option py_exn;
  warp_under_pattern_o : option py_exn;
  sanity_check_o : option py_exn;
  new_raster_o : option py_exn;
  block_loop_o : option py_exn;
  build_overviews_o : option py_exn
}.

(** [wallpaper_parcel], lines 426-502. *)
Definition wallpaper_parcel (o : wallpaper_outcomes) : fsM unit :=
  _ ← call (source_raster_info_o o);
  working_dir ← mkdtemp;
  _ ← fill_parcel (fill_o o);
  _ ← call (mask_raster_info_o o);
  _ ← call (warp_under_parcel_o o);
  _ ← call (warp_under_pattern_o o);
  _ ← call (sanity_check_o o);
  _ ← call (new_raster_o o);
  _ ← call (block_loop_o o);
  _ ← call (build_overviews_o o);
  rmtree working_dir.

(** Outcomes under which nothing raises. *)
Definition fill_all_ok : fill_outcomes :=
  FillOutcomes None "Polygon" None None None.
Definition wallpaper_all_ok : wallpaper_outcomes :=
  WallpaperOutcomes None fill_all_ok None None None None None None None.

(** The two raster operations that make a working directory. *)
Inductive operation : Type :=
  | FillParcel (o : fill_outcomes)
  | WallpaperParcel (o : wallpaper_outcomes).

Definition run_operation (op : operation) : fsM unit :=
  match op with
  | FillParcel o => fill_parcel o
  | WallpaperParcel o => wallpaper_parcel o
  end.

(** The operation gets as far as its [mkdtemp]: the call before it
    returns. *)
Definition reaches_mkdtemp (op : operation) : Prop :=
  match op with
  | FillParcel o => wkt_loads_o o = None
  | WallpaperParcel o => source_raster_info_o o = None
  end.

End Workdir.

(** ** [_reproject_to_nlud] *)

Module Reproject.

(** What [ogr_geom.Transform] did: the error code it returned and the WKT of
    the geometry afterwards. *)
Record transformed : Type := Transformed {
  err_code : Z;
  exported_wkt : string
}.

Inductive log_record : Type :=
  | Warning (msg : string).

(** Lines 309-317: the log records written, and the WKT of the geometry
    returned. *)
Definition reproject_to_nlud (transform : string -> transformed)
    (parcel_wkt_epsg3857 : string) : list log_record * result string :=
  let t := transform parcel_wkt_epsg3857 in
  let log :=
    if decide (err_code t = 0)
    then []
    else [Warning ("Transformation failed on parcel; continuing with "
                     +:+ parcel_wkt_epsg3857)] in
  if decide (exported_wkt t = parcel_wkt_epsg3857)
  then (log, Raise AssertionError)
  else (log, Return (exported_wkt t)).

End Reproject.

(** ** The job loop of [do_work] *)

Module Dispatch.

Definition STATUS_SUCCESS : string := "success".
Definition STATUS_FAILED : string := "failed".
Definition JOBTYPE_FILL : string := "lulc_fill".
Definition JOBTYPE_WALLPAPER : string := "wallpaper".
Definition JOBTYPE_CROP : string := "lulc_crop".
Definition JOBTYPE_PARCEL_STATS : string := "stats_under_parcel".
Definition JOBTYPE_PATTERN_THUMBNAIL : string := "pattern_thumbnail".
Definition JOBTYPE_INVEST : string := "invest".

Definition ENDPOINTS : gmap string string :=
  {[ JOBTYPE_FILL := "scenario";
     JOBTYPE_WALLPAPER := "scenario";
     JOBTYPE_CROP := "scenario";
     JOBTYPE_PARCEL_STATS := "parcel_stats";
     JOBTYPE_PATTERN_THUMBNAIL := "pattern";
     JOBTYPE_INVEST := "invest" ]}.

Definition CARBON : string := "carbon".
Definition URBAN_COOLING : string := "urban_cooling_model".
Definition URBAN_NATURE_ACCESS : string := "urban_nature_access".

(** The keys of [INVEST_MODELS]. *)
Definition INVEST_MODELS : gset string :=
  {[ URBAN_COOLING; CARBON; URBAN_NATURE_ACCESS ]}.

(** The values the worker puts into the payload: the fields of a result
    body, and the values of the keys of [data]. *)
Inductive pyfield : Type :=
  | FStr (s : string)
  | FStats (counts : gmap Z nat)
  | FBase (counts : gmap Z nat).

Inductive pyval : Type :=
  | PStr (s : string)
  | PAttrs (attrs : gmap string string)
  | PDict (items : list (string * pyfield)).

(** The job envelope after [json.loads]. *)
Record job : Type := Job {
  job_type : string;
  server_attrs : gmap string string;
  job_args : gmap string string
}.

(** The operations a job is mapped to; each may raise. *)
Record operations : Type := Operations {
  op_makedirs : string -> result unit;
  op_mkdtemp : string -> result string;
  op_rmtree : string -> result unit;
  op_create_new_lulc : string -> string -> result unit;
  op_fill_parcel : string -> string -> string -> result unit;
  op_wallpaper_parcel : string -> string -> string -> string -> string -> result unit;
  op_pixelcounts_under_parcel : string -> string -> result (gmap Z nat);
  op_build_args : string -> string -> string -> string -> result (gmap string string);
  op_execute : string -> gmap string string -> result unit;
  op_derive_results : string -> string -> result string
}.

(** A computation that records which operations it started. *)
Definition traced (A : Type) : Type := list string * result A.

#[global] Instance traced_ret : MRet traced := fun A a => ([], Return a).
#[global] Instance traced_bind : MBind traced := fun A B f m =>
  match m with
  | (t, inl e) => (t, inl e)
  | (t, inr a) => let '(t', r) := f a in (t ++ t', r)
  end.

(** Starting the operation [name]. *)
Definition run {A : Type} (name : string) (r : result A) : traced A := ([name], r).

(** [try: ... except OSError: LOGGER.exception(...)] around a call whose
    only exceptions are [OSError]s. *)
Definition swallow (m : traced unit) : traced unit := (m.1, Return ()).

(** [d[k]]. *)
Definition getitem {V : Type} (d : gmap string V) (k : string) : traced V :=
  match d !! k with
  | Some v => ([], Return v)
  | None => ([], Raise (KeyError k))
  end.

(** The body of the [try] statement, lines 663-761: the [data] dict. *)
Definition try_body (ops : operations) (scenarios_dir model_outputs_dir : string)
    (j : job) : traced (gmap string pyval) :=
  let job_type := job_type j in
  let server_args := server_attrs j in
  let job_args := job_args j in
  if decide (job_type ∈ [JOBTYPE_FILL; JOBTYPE_WALLPAPER; JOBTYPE_CROP]) then
    scenario_id ← getitem server_args "scenario_id";
    let workspace := scenarios_dir +:+ "/" +:+ scenario_id in
    let result_path := workspace +:+ "/" +:+ scenario_id +:+ "_" +:+ job_type +:+ ".tif" in
    _ ← run "makedirs" (op_makedirs ops workspace);
    _ ← (if decide (job_type = JOBTYPE_CROP) then
           wkt ← getitem job_args "target_parcel_wkt";
           run "_create_new_lulc" (op_create_new_lulc ops wkt result_path)
         else mret ());
    _ ← (if decide (job_type = JOBTYPE_FILL) then
           wkt ← getitem job_args "target_parcel_wkt";
           cls ← getitem job_args "lulc_class";
           run "fill_parcel" (op_fill_parcel ops wkt cls result_path)
         else if decide (job_type = JOBTYPE_WALLPAPER) then
           wallpaper_temp_dir ← run "mkdtemp" (op_mkdtemp ops workspace);
           wkt ← getitem job_args "target_parcel_wkt";
           pattern ← getitem job_args "pattern_bbox_wkt";
           source ← getitem job_args "lulc_source_url";
           _ ← run "wallpaper_parcel"
                 (op_wallpaper_parcel ops wkt pattern source result_path wallpaper_temp_dir);
           swallow (run "rmtree" (op_rmtree ops wallpaper_temp_dir))
         else mret ());
    wkt ← getitem job_args "target_parcel_wkt";
    stats ← run "pixelcounts_under_parcel" (op_pixelcounts_under_parcel ops wkt result_path);
    mret {[ "result" := PDict [("lulc_path", FStr result_path); ("lulc_stats", FStats stats)] ]}
  else if decide (job_type = JOBTYPE_PARCEL_STATS) then
    wkt ← getitem job_args "target_parcel_wkt";
    source ← getitem job_args "lulc_source_url";
    stats ← run "pixelcounts_under_parcel" (op_pixelcounts_under_parcel ops wkt source);
    mret {[ "result" := PDict [("lulc_stats", FBase stats)] ]}
  else if decide (job_type = JOBTYPE_INVEST) then
    invest_model ← getitem job_args "invest_model";
    scenario_id ← getitem job_args "scenario_id";
    _ ← (if decide (invest_model ∈ INVEST_MODELS) then mret ()
         else ([], Raise (KeyError invest_model)));
    lulc_path ← getitem job_args "lulc_source_url";
    let workspace_dir := model_outputs_dir +:+ "/" +:+ invest_model +:+ "-" +:+ scenario_id in
    study_area ← getitem job_args "study_area_wkt";
    args_dict ← run "build_args" (op_build_args ops invest_model lulc_path workspace_dir study_area);
    _ ← run "execute" (op_execute ops invest_model args_dict);
    model_result_path ← run "derive_results" (op_derive_results ops invest_model workspace_dir);
    serviceshed ←
      (if decide (invest_model = URBAN_COOLING) then getitem args_dict "aoi_vector_path"
       else if decide (invest_model = URBAN_NATURE_ACCESS)
            then getitem args_dict "admin_boundaries_vector_path"
            else mret "");
    mret {[ "result" := PDict [("invest-result", FStr model_result_path);
                                ("model", FStr invest_model);
                                ("serviceshed", FStr serviceshed)] ]}
  else ([], Raise (ValueError ("Invalid job type: " +:+ job_type))).

(** How one pass through the loop body ends: the result is posted to an
    endpoint, or an exception leaves the loop. *)
Inductive ending : Type :=
  | Posted (endpoint : string) (data : gmap string pyval)
  | Escaped (e : py_exn).

(** One pass through the loop body for a fetched job: the operations that
    were started, the [data] dict at the call of [requests.post], and the
    ending. *)
Record iteration : Type := Iteration {
  started : list string;
  data_built : gmap string pyval;
  ended : ending
}.

(** Lines 661-776: [try], [except Exception], [finally]. *)
Definition process_job (ops : operations) (scenarios_dir model_outputs_dir : string)
    (j : job) : iteration :=
  let '(trace, r) := try_body ops scenarios_dir model_outputs_dir j in
  let '(status, data) :=
    match r with
    | inr data => (STATUS_SUCCESS, data)
    | inl error => (STATUS_FAILED, {[ "result" := PStr STATUS_FAILED ]})
    end in
  let data := <["server_attrs" := PAttrs (server_attrs j)]> data in
  let data := <["status" := PStr status]> data in
  match ENDPOINTS !! job_type j with
  | Some endpoint => Iteration trace data (Posted endpoint data)
  | None => Iteration trace data (Escaped (KeyError (job_type j)))
  end.

(** The [while True] loop over the successive answers of the queue ([None]:
    no work, the worker sleeps and asks again): the results posted, and the
    exception that ended the loop, if one did. *)
Fixpoint do_work (ops : operations) (scenarios_dir model_outputs_dir : string)
    (responses : list (option job)) : list (string * gmap string pyval) * option py_exn :=
  match responses with
  | [] => ([], None)
  | None :: rest => do_work ops scenarios_dir model_outputs_dir rest
  | Some j :: rest =>
      match ended (process_job ops scenarios_dir model_outputs_dir j) with
      | Posted endpoint data =>
          let '(posts, e) := do_work ops scenarios_dir model_outputs_dir rest in
          ((endpoint, data) :: posts, e)
      | Escaped e => ([], Some e)
      end
  end.

(** Operations that all return. *)
Definition ok_operations : operations :=
  Operations (fun _ => Return ()) (fun d => Return (d +:+ "/wallpaper-tmp"))
    (fun _ => Return ()) (fun _ _ => Return ()) (fun _ _ _ => Return ())
    (fun _ _ _ _ _ => Return ()) (fun _ _ => Return ∅)
    (fun _ _ _ _ => Return ∅) (fun _ _ => Return ()) (fun _ _ => Return "result.json").

(** The uniform failure payload for a job. *)
Definition failure_payload (j : job) : gmap string pyval :=
  <["status" := PStr STATUS_FAILED]>
    (<["server_attrs" := PAttrs (server_attrs j)]>
       {[ "result" := PStr STATUS_FAILED ]}).

End Dispatch.

(** ** The block loop of [wallpaper_parcel] *)

Module WallpaperLoop.

Import Tiler.
Local Open Scope nat_scope.

(** The [offset_dict] that [iterblocks] yields with each block. *)
Record offset_dict : Type := OffsetDict {
  xoff : nat;
  yoff : nat;
  win_xsize : nat;
  win_ysize : nat
}.

(** The window lies within a raster of [rows] x [cols] pixels. *)
Definition in_raster (rows cols : nat) (o : offset_dict) : Prop :=
  yoff o + win_ysize o <= rows /\ xoff o + win_xsize o <= cols.

#[global] Instance in_raster_dec rows cols o : Decision (in_raster rows cols o).
Proof. unfold in_raster. apply _. Defined.

(** [band.ReadAsArray] at the offsets of a block: the window of the band,
    or [None] when the window does not lie within the raster. *)
Definition read_as_array (band : ndarray) (o : offset_dict) : option ndarray :=
  if decide (in_raster (shape0 band) (shape1 band) o)
  then Some (slice2 band (yoff o) (win_ysize o) (xoff o) (win_xsize o))
  else None.

(** The pixel at row [y] and column [x]; 0 outside the array. *)
Definition at2 (a : ndarray) (y x : nat) : Z := (a !!! y) !!! x.

(** [band.WriteArray(array, xoff=xoff, yoff=yoff)]: the band with the array
    written at the offset; GDAL refuses an array that does not fit. *)
Definition write_array (band array : ndarray) (xoff yoff : nat) : result ndarray :=
  if decide (yoff + shape0 array <= shape0 band /\ xoff + shape1 array <= shape1 band)
  then Return
         (imap (fun y row =>
            imap (fun x v =>
              if decide ((yoff <= y < yoff + shape0 array) /\
                         (xoff <= x < xoff + shape1 array))
              then at2 array (y - yoff) (x - xoff)
              else v) row) band)
  else Raise (ValueError "array larger than output file, or offset off edge").

(** Lines 466-494: the loop over the blocks of the raster under the parcel.
    [blocks] are the offsets that [iterblocks] yields, in its order; the
    block it yields with an offset is the window of [base_raster] there. *)
Fixpoint wallpaper_loop (wallpaper_array parcel_mask_band base_raster : ndarray)
    (blocks : list offset_dict) (target_band : ndarray) : result ndarray :=
  match blocks with
  | [] => Return target_band
  | offset_dict :: rest =>
      let base_array :=
        slice2 base_raster (yoff offset_dict) (win_ysize offset_dict)
               (xoff offset_dict) (win_xsize offset_dict) in
      match read_as_array parcel_mask_band offset_dict with
      | None => Raise AssertionError
      | Some parcel_mask_array =>
          wallpaper_tiled ← wallpaper_tiled wallpaper_array
                              (xoff offset_dict) (yoff offset_dict)
                              (win_xsize offset_dict) (win_ysize offset_dict);
          let target_array :=
            np_where_eq1 parcel_mask_array wallpaper_tiled base_array in
          target_band' ← write_array target_band target_array
                           (xoff offset_dict) (yoff offset_dict);
          wallpaper_loop wallpaper_array parcel_mask_band base_raster rest target_band'
      end
  end.

(** The block with offsets [o] contains the pixel ([y], [x]); some block of
    the list does. *)
Definition in_window (o : offset_dict) (y x : nat) : bool :=
  bool_decide ((yoff o <= y < yoff o + win_ysize o) /\
               (xoff o <= x < xoff o + win_xsize o)).
Definition covered (blocks : list offset_dict) (y x : nat) : bool :=
  existsb (fun o => in_window o y x) blocks.

(** The value the loop writes at a pixel. *)
Definition wallpapered_at (wallpaper_array parcel_mask_band base_raster : ndarray)
    (y x : nat) : Z :=
  if decide (at2 parcel_mask_band y x = 1%Z)
  then wallpaper_at wallpaper_array y x
  else at2 base_raster y x.

(** The mask raster of [wallpaper_parcel], line 431:
    [fill_parcel(parcel_wkt_epsg3857, 1, parcel_mask_raster_path)]. *)
Definition parcel_mask_raster (nodata : option Z) (lulc_window : ndarray)
    (touched : Fill.footprint) : ndarray :=
  Fill.fill_parcel_pixels nodata lulc_window touched 1.

(** The pixels [wallpaper_parcel] writes, lines 431-494. *)
Definition wallpaper_parcel_pixels (nodata : option Z)
    (lulc_window nlud_under_parcel wallpaper_array : ndarray)
    (touched : Fill.footprint) (blocks : list offset_dict)
    (target_band : ndarray) : result ndarray :=
  wallpaper_loop wallpaper_array (parcel_mask_raster nodata lulc_window touched)
    nlud_under_parcel blocks target_band.

End WallpaperLoop.

(** ** The job envelope and the whole loop of [do_work] *)

Module Poller.

Import Dispatch.

(** The object that [json.loads(response.json())] returns: each of the keys
    the worker reads may be missing. *)
Record envelope : Type := Envelope {
  env_server_attrs : option (gmap string string);
  env_job_type : option string;
  env_job_args : option (gmap string string)
}.

(** [d[k]] on the envelope. *)
Definition envelope_item {V : Type} (field : option V) (k : string) : result V :=
  match field with
  | Some v => Return v
  | None => Raise (KeyError k)
  end.

(** Lines 647-651: the fields of the job, read before the [try]. *)
Definition load_job (e : envelope) : result job :=
  server_args ← envelope_item (env_server_attrs e) "server_attrs";
  job_id ← envelope_item (server_args !! "job_id") "job_id";
  job_type ← envelope_item (env_job_type e) "job_type";
  job_args ← envelope_item (env_job_args e) "job_args";
  Return (Job job_type server_args job_args).

(** Lines 655-659: the two output directories are made when they do not
    exist; [exists] tells which paths exist. *)
Definition make_output_dirs (ops : operations) (exists_ : string -> bool)
    (scenarios_dir model_outputs_dir : string) : result unit :=
  _ ← (if exists_ scenarios_dir then Return () else op_makedirs ops scenarios_dir);
  if exists_ model_outputs_dir then Return () else op_makedirs ops model_outputs_dir.

(** What one round trip to the queue gives, lines 638-647: [requests.get],
    [response.json()] or [json.loads] raises; or the answer is empty (no
    work); or it is an envelope. *)
Inductive answer : Type :=
  | FetchRaises (err : py_exn)
  | NoWork
  | Work (e : envelope).

(** Lines 637-776: the loop over the successive answers of the queue, from
    the fetch to the post.  [post endpoint data] is what
    [requests.post(url, data=json.dumps(data))] does in the [finally]:
    nothing around it catches what it raises.  The result is the posts that
    were made, in order, and the exception that left the loop, if one
    did. *)
Fixpoint poll (ops : operations)
    (post : string -> gmap string pyval -> result unit)
    (exists_ : string -> bool)
    (scenarios_dir model_outputs_dir : string)
    (responses : list answer)
    : list (string * gmap string pyval) * option py_exn :=
  match responses with
  | [] => ([], None)
  | FetchRaises err :: _ => ([], Some err)
  | NoWork :: rest => poll ops post exists_ scenarios_dir model_outputs_dir rest
  | Work e :: rest =>
      match load_job e with
      | inl err => ([], Some err)
      | inr j =>
          match make_output_dirs ops exists_ scenarios_dir model_outputs_dir with
          | inl err => ([], Some err)
          | inr _ =>
              match ended (process_job ops scenarios_dir model_outputs_dir j) with
              | Posted endpoint data =>
                  match post endpoint data with
                  | inl err => ([], Some err)
                  | inr _ =>
                      let '(posts, err) :=
                        poll ops post exists_ scenarios_dir model_outputs_dir rest in
                      ((endpoint, data) :: posts, err)
                  end
              | Escaped err => ([], Some err)
              end
          end
      end
  end.

(** The envelope has every key the worker reads before the [try], and its
    tag has an endpoint. *)
Definition well_formed (e : envelope) : Prop :=
  exists j endpoint, load_job e = Return j /\ ENDPOINTS !! job_type j = Some endpoint.

(** The jobs of the answers that carry work. *)
Definition jobs_of (responses : list answer) : list job :=
  omap (fun r => match r with
                 | Work e => match load_job e with inr j => Some j | inl _ => None end
                 | _ => None
                 end)
       responses.

(** The queue answered every fetch, with work that is well formed or with
    none. *)
Definition answered (r : answer) : Prop :=
  match r with
  | FetchRaises _ => False
  | NoWork => True
  | Work e => well_formed e
  end.

End Poller.

(** ** [pixelcounts_under_parcel] on a window of a raster *)

Module ParcelStats.

Import Tiler WallpaperLoop.
Local Open Scope nat_scope.

(** The pixels of a window that the parcel touches: the mask raster is
    created on the grid of the source raster, with its origin at the
    window's first pixel (lines 555-558), so its pixel ([i], [j]) is the
    source's pixel ([yoff + i], [xoff + j]). *)
Definition window_footprint (touched : Fill.footprint) (o : offset_dict)
    : Fill.footprint :=
  fun i j => touched (yoff o + i) (xoff o + j).

(** Lines 551-576: the in-memory byte raster of the array's shape, filled
    with 0, with the parcel burned in as 1 under [ALL_TOUCHED=TRUE]. *)
Definition rasterized_mask (touched_in_window : Fill.footprint) (array : ndarray)
    : ndarray :=
  Fill.rasterize touched_in_window 1 (map (map (fun _ => 0%Z)) array).

(** Lines 547-588, for the window [o] computed from the parcel's bounds:
    the window is read from the source band, the mask is rasterized and the
    values under it are tabulated.  When the window cannot be read,
    [array] is [None] and [array.shape] raises. *)
Definition pixelcounts_in_window (touched : Fill.footprint) (source_band : ndarray)
    (o : offset_dict) : result (gmap Z nat) :=
  match read_as_array source_band o with
  | None => Raise (LibraryError "AttributeError")
  | Some array =>
      Stats.pixelcounts array (rasterized_mask (window_footprint touched o) array)
  end.

End ParcelStats.

(** ** The directories of a wallpaper job in [do_work] *)

Module JobDirs.

Import Workdir.

(** [tempfile.mkdtemp(dir=workspace, prefix='wallpaper-')] at line 685: it
    makes a directory that did not exist, or it raises and makes none. *)
Definition mkdtemp_in_workspace (outcome : option py_exn) : fsM nat :=
  match outcome with
  | Some e => fun s => (Raise e, s)
  | None => mkdtemp
  end.

(** Lines 695-700:
<<
    try:
        shutil.rmtree(wallpaper_temp_dir)
    except OSError as e:
        LOGGER.exception(...)
>>
    When [rmtree] cannot remove the directory it raises an [OSError], which
    is logged and dropped: the directory stays and the job goes on. *)
Definition rmtree_logged (rmtree_raises : bool) (d : nat) : fsM unit :=
  fun s => if rmtree_raises then (Return (), s)
           else (Return (), (rmtree d s).2).

(** Lines 685-700 of [do_work]: the temporary directory of the wallpaper
    job, around the call of [wallpaper_parcel]. *)
Definition wallpaper_job (mkdtemp_o : option py_exn) (o : wallpaper_outcomes)
    (rmtree_raises : bool) : fsM unit :=
  wallpaper_temp_dir ← mkdtemp_in_workspace mkdtemp_o;
  _ ← wallpaper_parcel o;
  rmtree_logged rmtree_raises wallpaper_temp_dir.

End JobDirs.

(** ** The pixel window of [pixelcounts_under_parcel] *)

Module PixelWindow.

Local Open Scope Q_scope.

(** [min(a, b)] and [max(a, b)]: the first argument unless the second is
    smaller (larger). *)
Definition py_min (a b : Q) : Q := if Qlt_le_dec b a then b else a.
Definition py_max (a b : Q) : Q := if Qlt_le_dec a b then b else a.

(** Lines 532-548: from the two corners of the parcel's bounds in pixel
    coordinates (what [ApplyGeoTransform] returned, finite floats and so
    rationals), the four arguments of [ReadAsArray]: x offset, y offset,
    x size and y size. *)
Definition pixel_window (_x0 _y0 _x1 _y1 : Q) : Z * Z * Z * Z :=
  let x0 := py_min _x0 _x1 in
  let y0 := py_min _y0 _y1 in
  let x1 := py_max _x0 _x1 in
  let y1 := py_max _y0 _y1 in
  let x0 := Qfloor x0 in
  let y0 := Qfloor y0 in
  let x1 := Qceiling x1 in
  let y1 := Qceiling y1 in
  (x0, y0, (x1 - x0)%Z, (y1 - y0)%Z).

(** The half-open interval of pixels [off], ..., [off + size - 1] is the
    smallest one that contains both coordinates. *)
Definition smallest_cover (off size : Z) (a b : Q) : Prop :=
  ((0 <= size)%Z) /\
  (inject_Z off <= a) /\ (inject_Z off <= b) /\
  (a <= inject_Z (off + size)) /\ (b <= inject_Z (off + size)) /\
  ((a < inject_Z (off + 1)) \/ (b < inject_Z (off + 1))) /\
  ((inject_Z (off + size - 1) < a) \/ (inject_Z (off + size - 1) < b)).

End PixelWindow.

(** * Properties *)

(** ** The serviceshed extent *)

Section GridFacts.

Import Grid.

(** With non-zero pixel sizes the snapping returns, and this is the box. *)
Lemma snap_edges_returns (ri : raster_info) (b : bounds) :
  PIXELSIZE_X ri <> 0 -> PIXELSIZE_Y ri <> 0 ->
  snap_edges ri b = Return (Bounds
    (minx b - Z.abs ((minx b - LULC_ORIGIN_X ri) mod PIXELSIZE_X ri))
    (miny b - Z.abs ((miny b - LULC_ORIGIN_Y ri) mod PIXELSIZE_Y ri))
    (maxx b + (PIXELSIZE_X ri - Z.abs ((maxx b - LULC_ORIGIN_X ri) mod PIXELSIZE_X ri)))
    (maxy b + (PIXELSIZE_Y ri - Z.abs ((maxy b - LULC_ORIGIN_Y ri) mod PIXELSIZE_Y ri)))).
Proof.
  intros Hx Hy. unfold snap_edges, float_mod.
  destruct (decide (PIXELSIZE_X ri = 0)) as [|_]; [contradiction|].
  destruct (decide (PIXELSIZE_Y ri = 0)) as [|_]; [contradiction|].
  reflexivity.
Qed.

(** A zero pixel size makes the remainder raise. *)
Lemma snap_edges_zero_pixelsize (ri : raster_info) (b : bounds) :
  PIXELSIZE_X ri = 0 -> snap_edges ri b = Raise ZeroDivisionError.
Proof.
  intros Hx. unfold snap_edges, float_mod.
  destruct (decide (PIXELSIZE_X ri = 0)); [reflexivity | contradiction].
Qed.

(** The min edges never move inwards, whatever the sign of the pixel size. *)
Lemma snap_edges_min_edges (ri : raster_info) (b b' : bounds) :
  snap_edges ri b = Return b' ->
  minx b' <= minx b /\ miny b' <= miny b.
Proof.
  unfold snap_edges, float_mod. intros H.
  destruct (decide (PIXELSIZE_X ri = 0)); [discriminate|].
  destruct (decide (PIXELSIZE_Y ri = 0)); [discriminate|].
  injection H as <-. simpl. lia.
Qed.

(** On a grid with positive pixel sizes the snapped box contains the box and
    lies on the grid. *)
Lemma snap_edges_positive_pixelsize (ri : raster_info) (b : bounds) :
  0 < PIXELSIZE_X ri -> 0 < PIXELSIZE_Y ri ->
  exists b', snap_edges ri b = Return b' /\ contains b' b /\ aligned ri b'.
Proof.
  intros Hx Hy. eexists. split; [apply snap_edges_returns; lia|].
  pose proof (Z.mod_pos_bound (minx b - LULC_ORIGIN_X ri) _ Hx).
  pose proof (Z.mod_pos_bound (maxx b - LULC_ORIGIN_X ri) _ Hx).
  pose proof (Z.mod_pos_bound (miny b - LULC_ORIGIN_Y ri) _ Hy).
  pose proof (Z.mod_pos_bound (maxy b - LULC_ORIGIN_Y ri) _ Hy).
  split.
  - unfold contains; simpl. lia.
  - unfold aligned, on_grid; simpl.
    rewrite !Z.abs_eq by lia.
    repeat split.
    + replace (minx b - (minx b - LULC_ORIGIN_X ri) mod PIXELSIZE_X ri - LULC_ORIGIN_X ri)
        with ((minx b - LULC_ORIGIN_X ri) - (minx b - LULC_ORIGIN_X ri) mod PIXELSIZE_X ri) by lia.
      rewrite Zminus_mod_idemp_r, Z.sub_diag. apply Zmod_0_l.
    + replace (miny b - (miny b - LULC_ORIGIN_Y ri) mod PIXELSIZE_Y ri - LULC_ORIGIN_Y ri)
        with ((miny b - LULC_ORIGIN_Y ri) - (miny b - LULC_ORIGIN_Y ri) mod PIXELSIZE_Y ri) by lia.
      rewrite Zminus_mod_idemp_r, Z.sub_diag. apply Zmod_0_l.
    + replace (maxx b + (PIXELSIZE_X ri - (maxx b - LULC_ORIGIN_X ri) mod PIXELSIZE_X ri) - LULC_ORIGIN_X ri)
        with (((maxx b - LULC_ORIGIN_X ri) - (maxx b - LULC_ORIGIN_X ri) mod PIXELSIZE_X ri) + 1 * PIXELSIZE_X ri) by lia.
      rewrite Z_mod_plus_full, Zminus_mod_idemp_r, Z.sub_diag. apply Zmod_0_l.
    + replace (maxy b + (PIXELSIZE_Y ri - (maxy b - LULC_ORIGIN_Y ri) mod PIXELSIZE_Y ri) - LULC_ORIGIN_Y ri)
        with (((maxy b - LULC_ORIGIN_Y ri) - (maxy b - LULC_ORIGIN_Y ri) mod PIXELSIZE_Y ri) + 1 * PIXELSIZE_Y ri) by lia.
      rewrite Z_mod_plus_full, Zminus_mod_idemp_r, Z.sub_diag. apply Zmod_0_l.
Qed.

(** With a negative y pixel size the top edge always moves down, by at least
    one pixel: the snapped box never contains the box. *)
Lemma snap_edges_negative_pixelsize_y (ri : raster_info) (b b' : bounds) :
  PIXELSIZE_Y ri < 0 ->
  snap_edges ri b = Return b' ->
  maxy b' <= maxy b + PIXELSIZE_Y ri /\ ~ contains b' b.
Proof.
  intros Hy H.
  assert (PIXELSIZE_X ri <> 0) as Hx.
  { intros E. rewrite (snap_edges_zero_pixelsize ri b E) in H. discriminate. }
  rewrite snap_edges_returns in H by lia. injection H as <-.
  unfold contains; simpl. lia.
Qed.

(** C2, at a failing input.  On the grid with origin (0, 0) and pixel sizes
    (30, -30), a parcel with bounds (1600, -3300, 1700, -3200) is buffered
    to (0, -4900, 3300, -1600); the extent handed to the warp is
    (0, -4910, 3330, -1640): its top edge lies 40 below the top edge of the
    buffered parcel, so the extent does not contain the buffered parcel's
    bounding box. *)
Theorem create_new_lulc_extent_cuts_top_edge :
  let ri := RasterInfo 0 0 30 (-30) in
  exists tr,
    create_new_lulc_extent ri (Bounds 1600 (-3300) 1700 (-3200)) = Return tr /\
    geom_bounds (buffered_parcel_geom tr) = Bounds 0 (-4900) 3300 (-1600) /\
    target_bb tr = Bounds 0 (-4910) 3330 (-1640) /\
    ~ contains (target_bb tr) (geom_bounds (buffered_parcel_geom tr)).
Proof.
  simpl. eexists. split; [reflexivity|]. simpl.
  split; [reflexivity|]. split; [reflexivity|].
  unfold contains; simpl. lia.
Qed.

(** For a box whose four edges lie on the grid, the snapping returns a box
    with the same two min edges (the residual is zero and nothing is
    subtracted), and along an axis with a positive pixel size the max edge
    lies exactly one pixel further out (the pixel size minus a zero residual
    is added). *)
Lemma snap_edges_of_aligned (ri : raster_info) (b : bounds) :
  PIXELSIZE_X ri <> 0 -> PIXELSIZE_Y ri <> 0 ->
  aligned ri b ->
  exists b', snap_edges ri b = Return b' /\
    minx b' = minx b /\ miny b' = miny b /\
    (0 < PIXELSIZE_X ri -> maxx b' = maxx b + PIXELSIZE_X ri) /\
    (0 < PIXELSIZE_Y ri -> maxy b' = maxy b + PIXELSIZE_Y ri).
Proof.
  intros Hx Hy (H1 & H2 & H3 & H4). unfold on_grid in *.
  eexists. split; [apply snap_edges_returns; assumption|]. simpl.
  rewrite H1, H2, H3, H4. simpl. repeat split; lia.
Qed.

(** C3, at a failing input.  On the grid with origin (0, 0) and pixel sizes
    (30, -30), the rectangular parcel with bounds (1600, -3500, 1700, -3100)
    is buffered to (0, -5100, 3300, -1500), a box with all four edges on the
    grid.  The snapping does not return this box: the two min edges stay,
    but a whole pixel is added to each max edge, so that the right edge
    moves from 3300 to 3330 and the top edge from -1500 to -1530. *)
Theorem create_new_lulc_extent_pads_aligned_box :
  let ri := RasterInfo 0 0 30 (-30) in
  exists tr,
    create_new_lulc_extent ri (Bounds 1600 (-3500) 1700 (-3100)) = Return tr /\
    geom_bounds (buffered_parcel_geom tr) = Bounds 0 (-5100) 3300 (-1500) /\
    aligned ri (geom_bounds (buffered_parcel_geom tr)) /\
    target_bb tr = Bounds 0 (-5100) 3330 (-1530) /\
    target_bb tr <> geom_bounds (buffered_parcel_geom tr).
Proof.
  simpl. eexists. split; [reflexivity|]. simpl.
  split; [reflexivity|]. split; [|split; [reflexivity | discriminate]].
  unfold aligned, on_grid; simpl. repeat split; reflexivity.
Qed.

End GridFacts.

(** ** The projection of the serviceshed extent *)

Section ServiceshedFacts.

Import Grid Serviceshed.


(** A base raster in any other projection stops the module. *)
Lemma load_module_raises (info : lulc_raster_info) :
  projection_wkt info <> WebMercator -> load_module info = Raise AssertionError.
Proof.
  intros H. unfold load_module. cbv zeta.
  destruct (decide (projection_wkt info = WebMercator)); [contradiction | reflexivity].
Qed.

(** For a rectangular parcel the box handed to the warp is the one of
    [create_new_lulc_extent]. *)
Lemma create_new_lulc_target_bb_box (ri : raster_info) (b : bounds) (tr : extent_trace) :
  create_new_lulc_extent ri b = Return tr ->
  create_new_lulc_target_bb ri (box b) = Return (target_bb tr).
Proof.
  unfold create_new_lulc_extent, serviceshed_extent, create_new_lulc_target_bb, box.
  cbv zeta. simpl.
  destruct (snap_edges _ _) as [e|bb]; simpl; [discriminate|].
  intros [= <-]. reflexivity.
Qed.




End ServiceshedFacts.

(** ** The wallpaper tiling *)

Section TilerFacts.

Import Tiler.
Local Open Scope nat_scope.

(** A list repeated [n] times, read at position [i]. *)
Lemma lookup_concat_replicate {A : Type} (l : list A) (n i : nat) :
  i < n * length l ->
  concat (replicate n l) !! i = l !! (i mod length l).
Proof.
  revert i. induction n as [|n IH]; intros i Hi; [lia|].
  assert (0 < length l) as Hl by (destruct (length l); lia).
  rewrite replicate_S; simpl.
  destruct (decide (i < length l)) as [Hlt|Hge].
  - rewrite lookup_app_l by assumption.
    rewrite Nat.mod_small by assumption. reflexivity.
  - rewrite lookup_app_r by lia.
    rewrite IH by lia.
    replace i with ((i - length l) + 1 * length l) at 2 by lia.
    rewrite Nat.Div0.mod_add. reflexivity.
Qed.

Lemma length_concat_replicate {A : Type} (l : list A) (n : nat) :
  length (concat (replicate n l)) = n * length l.
Proof.
  induction n as [|n IH]; [reflexivity|].
  rewrite replicate_S; simpl. rewrite length_app, IH. reflexivity.
Qed.

(** A slice that lies within the list, element by element. *)
Lemma take_drop_in_bounds {A : Type} `{!Inhabited A} (l : list A) (p w : nat) :
  p + w <= length l ->
  take w (drop p l) = map (fun j => l !!! (p + j)) (seq 0 w).
Proof.
  intros Hb. apply list_eq; intros j.
  rewrite list_lookup_fmap.
  destruct (decide (j < w)) as [Hj|Hj].
  - rewrite lookup_take_lt, lookup_drop by assumption.
    rewrite lookup_seq_lt by assumption. simpl.
    apply list_lookup_lookup_total_lt. lia.
  - rewrite lookup_take_ge by lia.
    rewrite lookup_seq_ge by lia. reflexivity.
Qed.

(** The slice of a repeated list is the list read cyclically. *)
Lemma slice_of_repeated {A : Type} `{!Inhabited A} (l : list A) (n p w : nat) :
  p + w <= n * length l ->
  take w (drop p (concat (replicate n l)))
  = map (fun j => l !!! ((p + j) mod length l)) (seq 0 w).
Proof.
  intros Hb.
  rewrite take_drop_in_bounds by (rewrite length_concat_replicate; assumption).
  apply list_eq; intros j. rewrite !list_lookup_fmap.
  destruct (decide (j < w)) as [Hj|Hj].
  - rewrite lookup_seq_lt by assumption. simpl. f_equal.
    assert (0 < length l) as Hl by (destruct (length l); lia).
    apply list_lookup_total_correct.
    rewrite lookup_concat_replicate by lia.
    apply list_lookup_lookup_total_lt. apply Nat.mod_upper_bound. lia.
  - rewrite lookup_seq_ge by lia. reflexivity.
Qed.

(** The repeat count the loop computes is enough for the slice. *)
Lemma repeats_cover (p w d : nat) :
  0 < d -> p + w < (1 + (p + w) / d) * d.
Proof.
  intros Hd.
  pose proof (Nat.div_mod_eq (p + w) d) as E.
  pose proof (Nat.mod_upper_bound (p + w) d ltac:(lia)) as B.
  nia.
Qed.

Lemma shape1_has_shape (h w : nat) (a : ndarray) :
  0 < h -> has_shape h w a -> shape1 a = w.
Proof.
  intros Hh [Hlen Hrows]. destruct a as [|r a]; simpl in *; [lia|].
  inversion Hrows; assumption.
Qed.

Lemma has_shape_row (h w : nat) (a : ndarray) (i : nat) :
  has_shape h w a -> i < h -> length (a !!! i) = w.
Proof.
  intros [Hlen Hrows] Hi.
  rewrite Forall_lookup in Hrows.
  apply (Hrows i). apply list_lookup_lookup_total_lt. lia.
Qed.

(** The window computed by the loop is the wallpaper read at absolute
    pixel positions. *)
Lemma wallpaper_tiled_window (H W : nat) (a : ndarray) (xoff yoff w h : nat) :
  0 < H -> 0 < W -> has_shape H W a ->
  wallpaper_tiled a xoff yoff w h = Return (wallpaper_window a xoff yoff w h).
Proof.
  intros HH HW Ha.
  pose proof (shape1_has_shape H W a HH Ha) as E1.
  assert (shape0 a = H) as E0 by apply Ha.
  unfold wallpaper_tiled, int_mod, int_floordiv. rewrite E0, E1.
  destruct (decide (W = 0)); [lia|]. destruct (decide (H = 0)); [lia|].
  simpl. f_equal.
  unfold slice2, np_tile, wallpaper_window.
  rewrite slice_of_repeated.
  2:{ rewrite length_map. fold (shape0 a). rewrite E0.
      pose proof (repeats_cover (yoff mod H) h H HH). lia. }
  rewrite length_map. fold (shape0 a). rewrite E0.
  rewrite <- list_fmap_compose.
  apply list_eq; intros i. rewrite !list_lookup_fmap.
  destruct (decide (i < h)) as [Hi|Hi];
    [|rewrite lookup_seq_ge by lia; reflexivity].
  rewrite lookup_seq_lt by assumption. simpl. f_equal.
  assert ((yoff mod H + i) mod H = (yoff + i) mod H) as Ey
    by (rewrite Nat.Div0.add_mod_idemp_l; reflexivity).
  rewrite Ey.
  assert ((yoff + i) mod H < H) as Hy by (apply Nat.mod_upper_bound; lia).
  rewrite (list_lookup_total_correct _ _ (concat (replicate (1 + (xoff mod W + w) / W) (a !!! ((yoff + i) mod H))))).
  2:{ rewrite list_lookup_fmap.
      rewrite (list_lookup_lookup_total_lt a) by (destruct Ha; lia).
      reflexivity. }
  pose proof (has_shape_row H W a _ Ha Hy) as Hrow.
  rewrite slice_of_repeated.
  2:{ rewrite Hrow. pose proof (repeats_cover (xoff mod W) w W HW). lia. }
  rewrite Hrow.
  apply list_eq; intros j. rewrite !list_lookup_fmap.
  destruct (decide (j < w)) as [Hj|Hj];
    [|rewrite lookup_seq_ge by lia; reflexivity].
  rewrite lookup_seq_lt by assumption. simpl. f_equal.
  unfold wallpaper_at. rewrite E0, E1.
  rewrite Nat.Div0.add_mod_idemp_l. reflexivity.
Qed.

(** Two windows next to each other make up the window that spans both. *)
Lemma wallpaper_window_hsplit (a : ndarray) (xoff yoff w1 w2 h : nat) :
  wallpaper_window a xoff yoff (w1 + w2) h
  = hstack (wallpaper_window a xoff yoff w1 h)
           (wallpaper_window a (xoff + w1) yoff w2 h).
Proof.
  unfold hstack, wallpaper_window.
  rewrite zip_with_fmap_l, zip_with_fmap_r, zip_with_diag.
  apply list_fmap_ext; intros _ i _.
  rewrite seq_app, fmap_app. f_equal. simpl.
  assert (seq w1 w2 = Nat.add w1 <$> seq 0 w2) as ->
    by (rewrite fmap_add_seq; f_equal; lia).
  rewrite <- list_fmap_compose.
  apply list_fmap_ext; intros _ j _. simpl. f_equal. lia.
Qed.

(** Two windows one below the other make up the window that spans both. *)
Lemma wallpaper_window_vsplit (a : ndarray) (xoff yoff w h1 h2 : nat) :
  wallpaper_window a xoff yoff w (h1 + h2)
  = vstack (wallpaper_window a xoff yoff w h1)
           (wallpaper_window a xoff (yoff + h1) w h2).
Proof.
  unfold vstack, wallpaper_window.
  rewrite seq_app, fmap_app. f_equal. simpl.
  assert (seq h1 h2 = Nat.add h1 <$> seq 0 h2) as ->
    by (rewrite fmap_add_seq; f_equal; lia).
  rewrite <- list_fmap_compose.
  apply list_fmap_ext; intros _ i _. simpl.
  apply list_fmap_ext; intros _ j _. f_equal. lia.
Qed.

Lemma wallpaper_window_no_columns (a : ndarray) (xoff yoff h : nat) :
  wallpaper_window a xoff yoff 0 h = replicate h [].
Proof.
  unfold wallpaper_window. simpl.
  apply list_eq; intros i. rewrite list_lookup_fmap.
  destruct (decide (i < h)) as [Hi|Hi].
  - rewrite lookup_seq_lt, lookup_replicate_2 by assumption. reflexivity.
  - rewrite lookup_seq_ge by lia. symmetry. apply lookup_ge_None.
    rewrite length_replicate. lia.
Qed.

(** A band tiled window by window is the band tiled in one pass. *)
Lemma tile_band_window (H W : nat) (a : ndarray) (ws : list nat) (xoff yoff h : nat) :
  0 < H -> 0 < W -> has_shape H W a ->
  tile_band a xoff yoff ws h = Return (wallpaper_window a xoff yoff (sum_list ws) h).
Proof.
  intros HH HW Ha. revert xoff.
  induction ws as [|w ws IH]; intros xoff; simpl.
  - rewrite wallpaper_window_no_columns. reflexivity.
  - rewrite (wallpaper_tiled_window H W) by assumption. simpl.
    rewrite IH. simpl. rewrite wallpaper_window_hsplit. reflexivity.
Qed.

(** C1.  For a pattern array of shape H x W and a target window at any
    absolute offset, tiling the window block by block (the blocks forming a
    grid with column widths [ws] and row heights [hs], each block tiled with
    the phase of its own absolute offset modulo (H, W), tiled 1 + floor
    times and sliced) and concatenating the blocks gives the array that
    tiling the whole window in one pass gives. *)
Theorem wallpaper_tiling_block_invariant (H W : nat) (a : ndarray)
    (ws hs : list nat) (xoff yoff : nat) :
  0 < H -> 0 < W -> has_shape H W a ->
  tile_blocks a xoff yoff ws hs
  = wallpaper_tiled a xoff yoff (sum_list ws) (sum_list hs).
Proof.
  intros HH HW Ha.
  rewrite (wallpaper_tiled_window H W) by assumption.
  revert yoff. induction hs as [|h hs IH]; intros yoff; simpl.
  - reflexivity.
  - rewrite (tile_band_window H W) by assumption. simpl.
    rewrite IH. simpl. rewrite wallpaper_window_vsplit. reflexivity.
Qed.

Lemma wallpaper_tiling_block_invariant_witness :
  tile_blocks [[1; 2; 3]; [4; 5; 6]]%Z 4 3 [2; 3] [1; 3]
  = wallpaper_tiled [[1; 2; 3]; [4; 5; 6]]%Z 4 3 (sum_list [2; 3]) (sum_list [1; 3]).
Proof.
  apply (wallpaper_tiling_block_invariant 2 3).
  - lia.
  - lia.
  - split; [reflexivity|]. repeat constructor.
Defined.

(** Splitting a window into two adjacent windows, side by side or one below
    the other, and concatenating the results gives the same array. *)
Corollary wallpaper_tiled_two_windows (H W : nat) (a : ndarray)
    (xoff yoff w1 w2 h1 h2 : nat) :
  0 < H -> 0 < W -> has_shape H W a ->
  (t1 ← wallpaper_tiled a xoff yoff w1 h1;
   t2 ← wallpaper_tiled a (xoff + w1) yoff w2 h1;
   Return (hstack t1 t2)) = wallpaper_tiled a xoff yoff (w1 + w2) h1 /\
  (t1 ← wallpaper_tiled a xoff yoff w1 h1;
   t2 ← wallpaper_tiled a xoff (yoff + h1) w1 h2;
   Return (vstack t1 t2)) = wallpaper_tiled a xoff yoff w1 (h1 + h2).
Proof.
  intros HH HW Ha.
  rewrite !(wallpaper_tiled_window H W) by assumption. simpl.
  rewrite wallpaper_window_hsplit, wallpaper_window_vsplit. split; reflexivity.
Qed.

(** C10.  For a pattern array of shape H x W with H, W > 0 and a window at
    any offset, the array [numpy.tile] builds with the repeat counts
    1 + ((phase + window size) // dimension) has at least phase + window
    size rows and columns, so the slice lies within it, and the sliced
    array has exactly the shape (win_ysize, win_xsize). *)
Theorem wallpaper_slice_in_bounds (H W : nat) (a : ndarray)
    (xoff yoff win_xsize win_ysize : nat) :
  0 < H -> 0 < W -> has_shape H W a ->
  let t := wallpaper_unsliced a xoff yoff win_xsize win_ysize in
  yoff mod H + win_ysize <= length t /\
  Forall (fun r => xoff mod W + win_xsize <= length r) t /\
  wallpaper_tiled a xoff yoff win_xsize win_ysize
    = Return (slice2 t (yoff mod H) win_ysize (xoff mod W) win_xsize) /\
  has_shape win_ysize win_xsize
    (slice2 t (yoff mod H) win_ysize (xoff mod W) win_xsize).
Proof.
  intros HH HW Ha.
  pose proof (shape1_has_shape H W a HH Ha) as E1.
  assert (shape0 a = H) as E0 by apply Ha.
  pose proof (repeats_cover (yoff mod H) win_ysize H HH) as Hy.
  pose proof (repeats_cover (xoff mod W) win_xsize W HW) as Hx.
  assert (length (wallpaper_unsliced a xoff yoff win_xsize win_ysize)
          = (1 + (yoff mod H + win_ysize) / H) * H) as Hlen.
  { unfold wallpaper_unsliced, np_tile. cbv zeta. rewrite E0, E1.
    rewrite length_concat_replicate, length_map. fold (shape0 a). rewrite E0.
    reflexivity. }
  assert (Forall (fun r => length r = (1 + (xoff mod W + win_xsize) / W) * W)
                 (wallpaper_unsliced a xoff yoff win_xsize win_ysize)) as Hrows.
  { unfold wallpaper_unsliced, np_tile. cbv zeta. rewrite E0, E1.
    apply Forall_concat, Forall_replicate, Forall_fmap.
    destruct Ha as [_ Ha]. eapply Forall_impl; [exact Ha|].
    intros r Hr. unfold compose. cbv beta.
    rewrite length_concat_replicate, Hr. reflexivity. }
  simpl. split; [lia|]. split.
  { eapply Forall_impl; [exact Hrows|]. intros r Hr. simpl in Hr. lia. }
  split.
  { unfold wallpaper_tiled, int_mod, int_floordiv, wallpaper_unsliced.
    rewrite E0, E1.
    destruct (decide (W = 0)); [lia|]. destruct (decide (H = 0)); [lia|].
    reflexivity. }
  unfold slice2. split.
  - rewrite length_map, length_take, length_drop. lia.
  - apply Forall_fmap, Forall_take, Forall_drop.
    eapply Forall_impl; [exact Hrows|]. intros r Hr. simpl.
    rewrite length_take, length_drop. simpl in Hr. lia.
Qed.

Lemma wallpaper_slice_in_bounds_witness :
  let a := [[1; 2; 3]; [4; 5; 6]]%Z in
  let t := wallpaper_unsliced a 4 3 5 4 in
  3 mod 2 + 4 <= length t /\
  Forall (fun r => 4 mod 3 + 5 <= length r) t /\
  wallpaper_tiled a 4 3 5 4 = Return (slice2 t (3 mod 2) 4 (4 mod 3) 5) /\
  has_shape 4 5 (slice2 t (3 mod 2) 4 (4 mod 3) 5).
Proof.
  apply (wallpaper_slice_in_bounds 2 3 [[1; 2; 3]; [4; 5; 6]]%Z 4 3 5 4).
  - lia.
  - lia.
  - split; [reflexivity|]. repeat constructor.
Defined.

End TilerFacts.

(** ** The pixel counts under the parcel *)

Section StatsFacts.

Import Tiler Stats UnderMask.
Local Open Scope nat_scope.

(** Selecting under the mask keeps one value per mask pixel equal to 1. *)
Lemma length_masked_row (arow mrow : list Z) :
  length arow = length mrow ->
  length (masked_row arow mrow) = length (filter (fun m : Z => m = 1%Z) mrow).
Proof.
  unfold masked_row. rewrite length_fmap.
  revert arow. induction mrow as [|m mrow IH]; intros [|v arow] Hlen;
    simpl in *; try lia.
  rewrite !filter_cons. simpl.
  destruct (decide (m = 1%Z)); simpl; rewrite IH by lia; reflexivity.
Qed.

Lemma length_masked_select (array parcel_mask : ndarray) :
  Forall2 (fun arow mrow => length arow = length mrow) array parcel_mask ->
  length (masked_select array parcel_mask) = count_ones parcel_mask.
Proof.
  unfold masked_select, count_ones.
  induction 1 as [|arow mrow array parcel_mask Hrow _ IH]; [reflexivity|].
  simpl. rewrite filter_app, !length_app, IH, length_masked_row by assumption.
  reflexivity.
Qed.

Lemma has_shape_same_rows (h w : nat) (a b : ndarray) :
  has_shape h w a -> has_shape h w b ->
  Forall2 (fun arow mrow => length arow = length mrow) a b.
Proof.
  intros [Ha1 Ha2] [Hb1 Hb2].
  apply Forall2_same_length_lookup_2; [congruence|].
  intros i x y Hx Hy.
  rewrite Forall_lookup in Ha2, Hb2.
  rewrite (Ha2 _ _ Hx), (Hb2 _ _ Hy). reflexivity.
Qed.

Lemma has_shape_shape (h w : nat) (a b : ndarray) :
  has_shape h w a -> has_shape h w b -> shape a = shape b.
Proof.
  intros [Ha1 Ha2] [Hb1 Hb2]. unfold shape, shape0, shape1.
  destruct a as [|ra a], b as [|rb b]; simpl in *; try lia.
  - reflexivity.
  - inversion Ha2; inversion Hb2; subst. f_equal; lia.
Qed.

(** The counts of the runs add up to the length of the list. *)
Lemma runs_sum (l : list Z) : sum_list (runs l).*2 = length l.
Proof.
  induction l as [|x l IH]; [reflexivity|]. simpl.
  destruct (runs l) as [|[y c] r]; simpl in *; [lia|].
  destruct (decide (x = y)); simpl; lia.
Qed.

(** Every run is of a value of the list and has a positive count. *)
Lemma runs_elem (l : list Z) (k : Z) (c : nat) :
  (k, c) ∈ runs l -> 0 < c /\ k ∈ l.
Proof.
  revert k c. induction l as [|x l IH]; intros k c Hin; simpl in Hin.
  - inversion Hin.
  - destruct (runs l) as [|[y c'] r] eqn:E.
    + apply list_elem_of_singleton in Hin. injection Hin as -> ->.
      split; [lia | apply list_elem_of_here].
    + destruct (decide (x = y)) as [->|Hne].
      * apply elem_of_cons in Hin as [Hin|Hin].
        -- injection Hin as -> ->. split; [lia | apply list_elem_of_here].
        -- destruct (IH k c) as [Hc Hk]; [apply list_elem_of_further; assumption|].
           split; [assumption | apply list_elem_of_further; assumption].
      * apply elem_of_cons in Hin as [Hin|Hin].
        -- injection Hin as -> ->. split; [lia | apply list_elem_of_here].
        -- destruct (IH k c) as [Hc Hk]; [assumption|].
           split; [assumption | apply list_elem_of_further; assumption].
Qed.

Lemma runs_head (l : list Z) (y : Z) (c : nat) (r : list (Z * nat)) :
  runs l = (y, c) :: r -> exists l', l = y :: l'.
Proof.
  destruct l as [|x l]; simpl; [discriminate|].
  destruct (runs l) as [|[y' c'] r'].
  - intros [= -> _ _]. eauto.
  - destruct (decide (x = y')) as [->|_]; intros [= -> _ _]; eauto.
Qed.

(** The values of the runs of a sorted list increase strictly. *)
Lemma runs_keys_sorted (l : list Z) :
  StronglySorted Z.le l -> StronglySorted Z.lt (runs l).*1.
Proof.
  induction 1 as [|x l Hs IH Hx]; simpl; [constructor|].
  destruct (runs l) as [|[y c] r] eqn:E; simpl in *.
  - repeat constructor.
  - destruct (decide (x = y)) as [->|Hne]; simpl; [assumption|].
    destruct (runs_head l y c r E) as [l' ->].
    apply StronglySorted_inv in IH as [IH1 IH2].
    assert (x < y)%Z as Hxy by (inversion Hx; lia).
    constructor; [constructor; assumption|].
    constructor; [assumption|].
    eapply Forall_impl; [exact IH2|]. intros k Hk. simpl in *. lia.
Qed.

Lemma strictly_sorted_NoDup (ks : list Z) :
  StronglySorted Z.lt ks -> NoDup ks.
Proof.
  induction 1 as [|k ks _ IH Hk]; constructor; [|assumption].
  intros Hin. rewrite Forall_forall in Hk. specialize (Hk k Hin). lia.
Qed.

(** The dict filled from pairs with distinct keys holds exactly the pairs. *)
Lemma to_dict_acc (kvs : list (Z * nat)) (m0 : gmap Z nat) :
  NoDup kvs.*1 ->
  (forall k, k ∈ kvs.*1 -> m0 !! k = None) ->
  map_to_list (foldl (fun return_values kv => <[kv.1 := kv.2]> return_values) m0 kvs)
  ≡ₚ kvs ++ map_to_list m0.
Proof.
  revert m0. induction kvs as [|[k c] kvs IH]; intros m0 Hnd Hfresh; simpl.
  - reflexivity.
  - simpl in Hnd. apply NoDup_cons in Hnd as [Hk Hnd].
    rewrite IH; [|assumption|].
    + rewrite map_to_list_insert by (apply Hfresh, list_elem_of_here).
      symmetry. apply Permutation_middle.
    + intros k' Hk'. rewrite lookup_insert_ne by (intros ->; contradiction).
      apply Hfresh, list_elem_of_further. assumption.
Qed.

Lemma to_dict_Permutation (kvs : list (Z * nat)) :
  NoDup kvs.*1 -> map_to_list (to_dict kvs) ≡ₚ kvs.
Proof.
  intros Hnd. unfold to_dict.
  rewrite to_dict_acc; [|assumption|intros; apply lookup_empty].
  rewrite map_to_list_empty, app_nil_r. reflexivity.
Qed.

(** A value selected under the mask sits at a pixel where the mask is 1. *)
Lemma elem_of_masked_select (array parcel_mask : ndarray) (v : Z) :
  v ∈ masked_select array parcel_mask ->
  exists i j, Fill.pixel array i j = Some v /\ Fill.pixel parcel_mask i j = Some 1%Z.
Proof.
  unfold masked_select. intros Hin.
  apply list_elem_of_In, in_concat in Hin as (sel & Hsel & Hv).
  apply list_elem_of_In in Hsel, Hv.
  apply elem_of_lookup_zip_with in Hsel as (i & arow & mrow & -> & Ha & Hm).
  unfold masked_row in Hv.
  apply list_elem_of_fmap in Hv as ([v' m] & -> & Hp).
  apply list_elem_of_filter in Hp as [Hone Hp]. simpl in Hone. subst m.
  apply list_elem_of_lookup in Hp as [j Hj].
  apply lookup_zip_with_Some in Hj as (x & y & [= -> ->] & Hx & Hy).
  exists i, j. unfold Fill.pixel. rewrite Ha, Hm. simpl. split; assumption.
Qed.

(** C5.  For an array read from the raster and a mask of the same shape,
    the pixel-stats result is a dict whose counts add up to the number of
    mask pixels equal to 1; every count in it is positive and belongs to a
    class code that some pixel under the mask holds in the raster, so a
    class code that no pixel under the mask holds is not a key of the
    result. *)
Theorem pixelcounts_total (h w : nat) (array parcel_mask : ndarray) :
  has_shape h w array -> has_shape h w parcel_mask ->
  exists return_values,
    pixelcounts array parcel_mask = Return return_values /\
    total return_values = count_ones parcel_mask /\
    (forall k c, return_values !! k = Some c ->
       0 < c /\ exists i j, holds_under_mask array parcel_mask k i j) /\
    (forall k, (forall i j, ~ holds_under_mask array parcel_mask k i j) ->
       return_values !! k = None).
Proof.
  intros Ha Hm. unfold pixelcounts, np_unique_counts.
  rewrite decide_True by (apply (has_shape_shape h w); assumption).
  rewrite zip_fst_snd.
  set (sel := masked_select array parcel_mask).
  set (u := runs (merge_sort Z.le sel)).
  assert (NoDup u.*1) as Hnd.
  { apply strictly_sorted_NoDup, runs_keys_sorted.
    apply StronglySorted_merge_sort; apply _. }
  pose proof (to_dict_Permutation u Hnd) as Hperm.
  assert (forall k c, to_dict u !! k = Some c ->
            0 < c /\ exists i j, holds_under_mask array parcel_mask k i j) as Hin.
  { intros k c Hkc. apply elem_of_map_to_list in Hkc.
    rewrite Hperm in Hkc. apply runs_elem in Hkc as [Hc Hk].
    split; [assumption|]. rewrite merge_sort_Permutation in Hk.
    apply elem_of_masked_select in Hk as (i & j & Hpa & Hpm).
    exists i, j. split; assumption. }
  eexists. split; [reflexivity|]. split; [|split].
  - unfold total. rewrite Hperm. unfold u. rewrite runs_sum.
    rewrite merge_sort_Permutation. unfold sel.
    apply length_masked_select, (has_shape_same_rows h w); assumption.
  - exact Hin.
  - intros k Hk. destruct (to_dict u !! k) as [c|] eqn:E; [|reflexivity].
    destruct (Hin k c E) as [_ (i & j & Hij)]. destruct (Hk i j Hij).
Qed.

Lemma pixelcounts_total_witness :
  exists return_values,
    pixelcounts [[262; 262]; [321; 7]]%Z [[1; 1]; [1; 0]]%Z = Return return_values /\
    total return_values = count_ones [[1; 1]; [1; 0]]%Z /\
    (forall k c, return_values !! k = Some c ->
       0 < c /\ exists i j,
         holds_under_mask [[262; 262]; [321; 7]]%Z [[1; 1]; [1; 0]]%Z k i j) /\
    (forall k,
       (forall i j, ~ holds_under_mask [[262; 262]; [321; 7]]%Z [[1; 1]; [1; 0]]%Z k i j) ->
       return_values !! k = None).
Proof.
  apply (pixelcounts_total 2 2).
  - split; [reflexivity|]. repeat constructor.
  - split; [reflexivity|]. repeat constructor.
Defined.

End StatsFacts.

(** ** The filled raster *)

Section FillFacts.

Import Tiler Fill.
Local Open Scope nat_scope.

(** A function of row, column and value applied to every pixel is the
    function mapped over the indexed pixels. *)
Lemma concat_imap_indexed {A : Type} (g : nat * nat * Z -> A) (fi : nat -> nat)
    (a : ndarray) :
  concat (imap (fun i row => imap (fun j v => g (fi i, j, v)) row) a)
  = g <$> concat (imap (fun i row => imap (fun j v => (fi i, j, v)) row) a).
Proof.
  revert fi. induction a as [|row a IH]; intros fi; [reflexivity|].
  rewrite !imap_cons. simpl. rewrite fmap_app. f_equal.
  - rewrite fmap_imap. reflexivity.
  - apply (IH (fi ∘ S)).
Qed.

Lemma concat_rasterize (touched : footprint) (burn : Z) (a : ndarray) :
  concat (rasterize touched burn a)
  = (fun p : nat * nat * Z => if touched p.1.1 p.1.2 then burn else p.2) <$> indexed a.
Proof.
  unfold rasterize, indexed.
  apply (concat_imap_indexed
           (fun p : nat * nat * Z => if touched p.1.1 p.1.2 then burn else p.2) id).
Qed.

(** After the burn, the pixels that hold the burn value are those under the
    mask and those outside it that held the value before. *)
Lemma count_after_burn (touched : footprint) (burn : Z) (l : list (nat * nat * Z)) :
  length (filter (fun x : Z => x = burn)
            ((fun p : nat * nat * Z => if touched p.1.1 p.1.2 then burn else p.2) <$> l))
  = length (filter (fun p : nat * nat * Z => touched p.1.1 p.1.2 = true) l)
    + length (filter (fun p : nat * nat * Z => touched p.1.1 p.1.2 = false /\ p.2 = burn) l).
Proof.
  induction l as [|[[i j] v] l IH]; [reflexivity|].
  rewrite fmap_cons, !filter_cons. cbn [fst snd].
  destruct (touched i j) eqn:T; repeat case_decide;
    try congruence; try tauto; simpl; rewrite IH; lia.
Qed.

Lemma pixel_rasterize (touched : footprint) (burn : Z) (a : ndarray) (i j : nat) :
  pixel (rasterize touched burn a) i j
  = (fun v => if touched i j then burn else v) <$> pixel a i j.
Proof.
  unfold pixel, rasterize. rewrite list_lookup_imap.
  destruct (a !! i) as [row|]; simpl; [|reflexivity].
  rewrite list_lookup_imap. reflexivity.
Qed.

(** After [fill_parcel], a pixel of the output holds the class code where
    the all-touched mask of the parcel is 1 and the base raster's value
    everywhere else; so the number of output pixels equal to the class code
    is the number of mask pixels equal to 1 plus the number of base pixels
    outside the mask that already held the class code. *)
Lemma fill_parcel_conservation (nodata : option Z) (base_window : ndarray)
    (touched : footprint) (fill_lulc_class : Z) :
  let out := fill_parcel_pixels nodata base_window touched fill_lulc_class in
  count_value fill_lulc_class out
    = count_touched touched base_window
      + count_untouched_value touched fill_lulc_class base_window /\
  forall i j, pixel out i j
    = (fun v => if touched i j then fill_lulc_class else v) <$> pixel base_window i j.
Proof.
  unfold fill_parcel_pixels, create_new_lulc_pixels. simpl. split.
  - unfold count_value, count_touched, count_untouched_value.
    rewrite concat_rasterize. apply count_after_burn.
  - intros i j. apply pixel_rasterize.
Qed.

(** C6, at a failing input.  The warp copies a window of 109 rows and 111
    columns of the base raster, whose nodata value is 0; the window holds
    class 262 everywhere except for class 15 at the corner pixel (0, 0).
    The parcel touches the 16 pixels of rows 52-55 and columns 53-56 and is
    filled with class 15.  The output holds class 15 at 17 pixels although
    the mask has 16 pixels equal to 1: the corner pixel outside the parcel
    keeps the base raster's 15, as its neighbour keeps 262, where a raster
    filled with nodata except for the parcel would hold 0. *)
Theorem fill_count_exceeds_mask :
  let base_window : ndarray :=
    <[0 := <[0 := 15%Z]> (replicate 111 262%Z)]>
      (replicate 109 (replicate 111 262%Z)) in
  let touched : footprint :=
    fun i j => (52 <=? i) && (i <=? 55) && (53 <=? j) && (j <=? 56) in
  let out := fill_parcel_pixels (Some 0%Z) base_window touched 15 in
  shape0 out = 109 /\ shape1 out = 111 /\
  count_touched touched base_window = 16 /\
  count_value 15 out = 17 /\
  pixel out 0 0 = Some 15%Z /\ pixel out 0 1 = Some 262%Z.
Proof. vm_compute. repeat split. Qed.

(** When no base pixel outside the mask holds the class code, the count is
    the mask's. *)
Corollary fill_parcel_count_fresh_class (nodata : option Z) (base_window : ndarray)
    (touched : footprint) (fill_lulc_class : Z) :
  count_untouched_value touched fill_lulc_class base_window = 0 ->
  count_value fill_lulc_class
    (fill_parcel_pixels nodata base_window touched fill_lulc_class)
  = count_touched touched base_window.
Proof.
  intros H0. unfold fill_parcel_pixels, create_new_lulc_pixels.
  unfold count_value, count_touched. unfold count_untouched_value in H0.
  rewrite concat_rasterize, count_after_burn, H0. lia.
Qed.

End FillFacts.

(** ** Working directories *)

Section WorkdirFacts.

Import Workdir.

Lemma remove_fresh (s : dirs) : ({[fresh s]} ∪ s) ∖ {[fresh s]} = s.
Proof.
  apply set_eq; intros x.
  rewrite elem_of_difference, elem_of_union, elem_of_singleton.
  split.
  - intros [[->|Hx] Hne]; [contradiction | assumption].
  - intros Hx. split; [right; assumption|].
    intros ->. exact (is_fresh s Hx).
Qed.

Lemma fresh_in_union (s : dirs) : fresh s ∈ ({[fresh s]} ∪ s : dirs).
Proof. apply elem_of_union_l, elem_of_singleton. reflexivity. Qed.

(** [fill_parcel] either raises before its [mkdtemp], or raises later and
    leaves the directory, or returns with the directory removed. *)
Lemma fill_parcel_dirs (o : fill_outcomes) (s : dirs) :
  match fill_parcel o s with
  | (inr _, s') => s' = s
  | (inl _, s') =>
      match wkt_loads_o o with
      | Some _ => s' = s
      | None => s' = {[fresh s]} ∪ s
      end
  end.
Proof.
  unfold fill_parcel, call, mkdtemp, rmtree, mbind, fsM_bind, Return, Raise.
  destruct (wkt_loads_o o); simpl; [reflexivity|].
  destruct (OGR_GEOMETRY_TYPES !! parcel_geom_type o); simpl; [|reflexivity].
  destruct (geometry_to_vector_o o); simpl; [reflexivity|].
  destruct (create_new_lulc_o o); simpl; [reflexivity|].
  destruct (rasterize_o o); simpl; [reflexivity|].
  rewrite decide_True by apply fresh_in_union. apply remove_fresh.
Qed.

(** [wallpaper_parcel] likewise; when it raises after its [mkdtemp], its
    directory is still there, next to every directory that was there. *)
Lemma wallpaper_parcel_dirs (o : wallpaper_outcomes) (s : dirs) :
  match wallpaper_parcel o s with
  | (inr _, s') => s' = s
  | (inl _, s') =>
      match source_raster_info_o o with
      | Some _ => s' = s
      | None => (fresh s ∈ s') /\ (s ⊆ s')
      end
  end.
Proof.
  unfold wallpaper_parcel, mbind, fsM_bind, call, mkdtemp, rmtree, Return, Raise.
  destruct (source_raster_info_o o); simpl; [reflexivity|].
  pose proof (fill_parcel_dirs (fill_o o) ({[fresh s]} ∪ s)) as Hfill.
  pose proof (fresh_in_union s) as Hin.
  assert (s ⊆ ({[fresh s]} ∪ s : dirs)) as Hsub by apply union_subseteq_r.
  destruct (fill_parcel (fill_o o) ({[fresh s]} ∪ s)) as [[e|[]] s1].
  - destruct (wkt_loads_o (fill_o o)); subst s1.
    + split; assumption.
    + split.
      * apply elem_of_union_r. assumption.
      * etrans; [exact Hsub | apply union_subseteq_r].
  - subst s1.
    destruct (mask_raster_info_o o); simpl; [split; assumption|].
    destruct (warp_under_parcel_o o); simpl; [split; assumption|].
    destruct (warp_under_pattern_o o); simpl; [split; assumption|].
    destruct (sanity_check_o o); simpl; [split; assumption|].
    destruct (new_raster_o o); simpl; [split; assumption|].
    destruct (block_loop_o o); simpl; [split; assumption|].
    destruct (build_overviews_o o); simpl; [split; assumption|].
    rewrite decide_True by assumption. apply remove_fresh.
Qed.

(** C7 as stated fails: when the rasterization in [fill_parcel] raises, the
    working directory made before it is still there when the exception
    leaves the operation. *)
Lemma fill_parcel_leaves_workdir_on_exception :
  let o := FillOutcomes None "Polygon" None None (Some (LibraryError "rasterize")) in
  exists d : nat,
    (d ∉ (∅ : dirs)) /\
    fill_parcel o ∅ = (Raise (LibraryError "rasterize"), {[d]}).
Proof.
  exists (fresh (∅ : dirs)). split.
  - apply not_elem_of_empty.
  - vm_compute. reflexivity.
Qed.

(** C7, amended.  A raster operation (fill, wallpaper) that gets as far as
    creating its working directory has removed it when it returns normally:
    the directories are those that existed before.  When a step raises
    after the directory was created, the exception leaves the operation
    with the directory still in place. *)
Theorem workdir_removed_on_return (op : operation) (s s' : dirs) (r : result unit) :
  reaches_mkdtemp op ->
  run_operation op s = (r, s') ->
  match r with
  | inr _ => s' = s
  | inl _ => (fresh s ∉ s) /\ (fresh s ∈ s')
  end.
Proof.
  intros Hreach Hrun. destruct op as [o|o]; simpl in *.
  - pose proof (fill_parcel_dirs o s) as H. rewrite Hrun, Hreach in H.
    destruct r as [e|[]]; [|assumption].
    subst s'. split; [apply is_fresh | apply fresh_in_union].
  - pose proof (wallpaper_parcel_dirs o s) as H. rewrite Hrun, Hreach in H.
    destruct r as [e|[]]; [|assumption].
    split; [apply is_fresh | exact (proj1 H)].
Qed.

Lemma workdir_removed_on_return_witness :
  match (Return () : result unit) with
  | inr _ => (∅ : dirs) = ∅
  | inl _ => (fresh (∅ : dirs) ∉ (∅ : dirs)) /\ (fresh (∅ : dirs) ∈ (∅ : dirs))
  end.
Proof.
  apply (workdir_removed_on_return (WallpaperParcel wallpaper_all_ok) ∅ ∅ (Return ())).
  - reflexivity.
  - vm_compute. reflexivity.
Defined.

End WorkdirFacts.

(** ** The coordinate transformation *)

Section ReprojectFacts.

Import Reproject.

(** C8 as stated fails: the transform reports the error code 1 and leaves a
    geometry whose WKT differs from the input; [_reproject_to_nlud] writes a
    warning and returns that geometry, it does not raise. *)
Lemma reproject_error_code_not_raised :
  let transform := fun _ : string => Transformed 1 "POINT (1 1)" in
  err_code (transform "POINT (0 0)") <> 0 /\
  reproject_to_nlud transform "POINT (0 0)"
  = ([Warning "Transformation failed on parcel; continuing with POINT (0 0)"],
     Return "POINT (1 1)").
Proof. split; [discriminate | reflexivity]. Qed.

(** C8, amended.  The transformation to the native projection raises
    exactly when the WKT after the transform is identical to the input WKT,
    whether or not an error code was reported; otherwise it returns the
    transformed geometry.  An error code reported by the underlying
    transform only writes a warning to the log. *)
Theorem reproject_raises_iff_unchanged (transform : string -> transformed)
    (parcel_wkt_epsg3857 : string) :
  let t := transform parcel_wkt_epsg3857 in
  let r := reproject_to_nlud transform parcel_wkt_epsg3857 in
  (r.2 = Raise AssertionError <-> exported_wkt t = parcel_wkt_epsg3857) /\
  (r.2 = Return (exported_wkt t) <-> exported_wkt t <> parcel_wkt_epsg3857) /\
  (r.1 = [] <-> err_code t = 0) /\
  (r.1 = [Warning ("Transformation failed on parcel; continuing with "
                     +:+ parcel_wkt_epsg3857)] <-> err_code t <> 0).
Proof.
  unfold reproject_to_nlud. simpl.
  destruct (decide (exported_wkt (transform parcel_wkt_epsg3857) = parcel_wkt_epsg3857))
    as [Heq|Hne];
  destruct (decide (err_code (transform parcel_wkt_epsg3857) = 0)) as [Hz|Hnz];
  simpl; repeat split; intros; try congruence; try contradiction; try discriminate.
Qed.

Lemma reproject_raises_iff_unchanged_witness :
  (reproject_to_nlud (fun w => Transformed 0 w) "POINT (0 0)").2 = Raise AssertionError.
Proof.
  apply (proj1 (reproject_raises_iff_unchanged (fun w => Transformed 0 w) "POINT (0 0)")).
  reflexivity.
Defined.

End ReprojectFacts.

(** ** The job loop *)

Section DispatchFacts.

Import Dispatch.

Variable ops : operations.
Variables scenarios_dir model_outputs_dir : string.

(** A tag without an endpoint is none of the tags the dispatcher handles. *)
Lemma no_endpoint_not_dispatched (j : job) :
  ENDPOINTS !! job_type j = None ->
  try_body ops scenarios_dir model_outputs_dir j
  = ([], Raise (ValueError ("Invalid job type: " +:+ job_type j))).
Proof.
  intros Hnone. unfold try_body.
  rewrite decide_False.
  2:{ rewrite !elem_of_cons, elem_of_nil.
      intros [E|[E|[E|[]]]]; rewrite E in Hnone; vm_compute in Hnone; discriminate. }
  rewrite decide_False
    by (intros E; rewrite E in Hnone; vm_compute in Hnone; discriminate).
  rewrite decide_False
    by (intros E; rewrite E in Hnone; vm_compute in Hnone; discriminate).
  reflexivity.
Qed.

(** A job whose tag has an endpoint always ends with a post to that
    endpoint, whatever its operations do. *)
Lemma process_job_posts (j : job) (endpoint : string) :
  ENDPOINTS !! job_type j = Some endpoint ->
  exists data, ended (process_job ops scenarios_dir model_outputs_dir j) = Posted endpoint data.
Proof.
  intros Hep. unfold process_job.
  destruct (try_body ops scenarios_dir model_outputs_dir j) as [trace [e|data]];
    simpl; rewrite Hep; eexists; reflexivity.
Qed.

(** C4, at every unrecognized tag.  For a fetched job whose tag has no
    entry in [ENDPOINTS], no operation is started and the failure payload
    with status 'failed' is built, but the lookup of the endpoint in the
    [finally] block raises [KeyError]: nothing is posted, the exception
    leaves the loop and the jobs that follow are never fetched. *)
Theorem unknown_job_type_escapes (j : job) (rest : list (option job)) :
  ENDPOINTS !! job_type j = None ->
  process_job ops scenarios_dir model_outputs_dir j
    = Iteration [] (failure_payload j) (Escaped (KeyError (job_type j))) /\
  do_work ops scenarios_dir model_outputs_dir (Some j :: rest)
    = ([], Some (KeyError (job_type j))).
Proof.
  intros Hnone.
  assert (process_job ops scenarios_dir model_outputs_dir j
          = Iteration [] (failure_payload j) (Escaped (KeyError (job_type j)))) as E.
  { unfold process_job. rewrite no_endpoint_not_dispatched by assumption.
    simpl. rewrite Hnone. reflexivity. }
  split; [exact E|]. simpl. rewrite E. reflexivity.
Qed.

End DispatchFacts.

Lemma unknown_job_type_escapes_witness :
  let j := Dispatch.Job "foo" {[ "job_id" := "1" ]} ∅ in
  Dispatch.process_job Dispatch.ok_operations "scenarios" "model_outputs" j
    = Dispatch.Iteration [] (Dispatch.failure_payload j) (Dispatch.Escaped (KeyError "foo")) /\
  Dispatch.do_work Dispatch.ok_operations "scenarios" "model_outputs"
      [Some j; Some (Dispatch.Job Dispatch.JOBTYPE_CROP {[ "job_id" := "2" ]} ∅)]
    = ([], Some (KeyError "foo")).
Proof.
  apply (unknown_job_type_escapes Dispatch.ok_operations "scenarios" "model_outputs"
           (Dispatch.Job "foo" {[ "job_id" := "1" ]} ∅)).
  vm_compute. reflexivity.
Defined.

(** ** The block loop of the wallpaper *)

Section WallpaperLoopFacts.

Import Tiler WallpaperLoop.
Local Open Scope nat_scope.

Lemma lookup_total_take_drop {A : Type} `{!Inhabited A} (l : list A) (p w j : nat) :
  j < w -> take w (drop p l) !!! j = l !!! (p + j).
Proof.
  intros Hj. rewrite !list_lookup_total_alt, lookup_take_lt, lookup_drop by assumption.
  reflexivity.
Qed.

Lemma shape1_le (h w : nat) (a : ndarray) : has_shape h w a -> shape1 a <= w.
Proof.
  intros [_ Hrows]. destruct a as [|r a]; simpl; [lia|].
  inversion Hrows; subst. lia.
Qed.

Lemma shape1_eq (h w : nat) (a : ndarray) :
  has_shape h w a -> shape1 a = if decide (h = 0) then 0 else w.
Proof.
  intros [Hlen Hrows]. destruct a as [|r a]; simpl in *.
  - rewrite decide_True by lia. reflexivity.
  - rewrite decide_False by lia. inversion Hrows; assumption.
Qed.

(** A window read within the raster has the window's shape and holds the
    raster's pixels. *)
Lemma slice2_has_shape (rows cols : nat) (r : ndarray) (y h x w : nat) :
  has_shape rows cols r -> y + h <= rows -> x + w <= cols ->
  has_shape h w (slice2 r y h x w).
Proof.
  intros [Hlen Hrows] Hy Hx. unfold slice2. split.
  - rewrite length_map, length_take, length_drop. lia.
  - apply Forall_fmap, Forall_take, Forall_drop.
    eapply Forall_impl; [exact Hrows|]. intros row Hrow. simpl in Hrow |- *.
    rewrite length_take, length_drop. lia.
Qed.

Lemma at2_slice2 (r : ndarray) (y h x w i j : nat) :
  i < h -> j < w -> y + i < length r ->
  at2 (slice2 r y h x w) i j = at2 r (y + i) (x + j).
Proof.
  intros Hi Hj Hlen. unfold at2, slice2.
  rewrite (list_lookup_total_correct _ i (take w (drop x (r !!! (y + i))))).
  - apply lookup_total_take_drop. assumption.
  - rewrite list_lookup_fmap, lookup_take_lt, lookup_drop by assumption.
    rewrite (list_lookup_lookup_total_lt r) by assumption. reflexivity.
Qed.

Lemma wallpaper_window_has_shape (a : ndarray) (xoff yoff w h : nat) :
  has_shape h w (wallpaper_window a xoff yoff w h).
Proof.
  unfold wallpaper_window. split.
  - rewrite length_map, length_seq. reflexivity.
  - apply Forall_fmap, Forall_forall. intros i _. simpl.
    rewrite length_map, length_seq. reflexivity.
Qed.

Lemma at2_wallpaper_window (a : ndarray) (xoff yoff w h i j : nat) :
  i < h -> j < w ->
  at2 (wallpaper_window a xoff yoff w h) i j = wallpaper_at a (yoff + i) (xoff + j).
Proof.
  intros Hi Hj. unfold at2, wallpaper_window.
  rewrite (list_lookup_total_correct _ i
             (map (fun j => wallpaper_at a (yoff + i) (xoff + j)) (seq 0 w))).
  - apply list_lookup_total_correct.
    rewrite list_lookup_fmap, lookup_seq_lt by assumption. reflexivity.
  - rewrite list_lookup_fmap, lookup_seq_lt by assumption. reflexivity.
Qed.

(** [numpy.where] on three arrays of one shape: the shape is kept and every
    pixel is chosen by the mask. *)
Lemma np_where_eq1_has_shape (h w : nat) (m t b : ndarray) :
  has_shape h w m -> has_shape h w t -> has_shape h w b ->
  has_shape h w (np_where_eq1 m t b).
Proof.
  intros [Hm1 Hm2] [Ht1 Ht2] [Hb1 Hb2]. unfold np_where_eq1. split.
  - rewrite length_zip_with, length_zip. lia.
  - apply Forall_lookup. intros i row Hrow.
    rewrite lookup_zip_with in Hrow.
    destruct (m !! i) as [mrow|] eqn:Em; simpl in Hrow; [|discriminate].
    destruct (zip t b !! i) as [[trow brow]|] eqn:Ez; simpl in Hrow; [|discriminate].
    injection Hrow as <-.
    rewrite lookup_zip_with in Ez.
    destruct (t !! i) as [trow'|] eqn:Et; simpl in Ez; [|discriminate].
    destruct (b !! i) as [brow'|] eqn:Eb; simpl in Ez; [|discriminate].
    injection Ez as <- <-.
    rewrite Forall_lookup in Hm2, Ht2, Hb2.
    rewrite length_zip_with, length_zip, (Hm2 _ _ Em), (Ht2 _ _ Et), (Hb2 _ _ Eb).
    lia.
Qed.

Lemma at2_np_where_eq1 (h w : nat) (m t b : ndarray) (i j : nat) :
  has_shape h w m -> has_shape h w t -> has_shape h w b ->
  i < h -> j < w ->
  at2 (np_where_eq1 m t b) i j
  = if decide (at2 m i j = 1%Z) then at2 t i j else at2 b i j.
Proof.
  intros Hm Ht Hb Hi Hj. unfold at2, np_where_eq1.
  pose proof (has_shape_row h w m i Hm Hi) as Lm.
  pose proof (has_shape_row h w t i Ht Hi) as Lt.
  pose proof (has_shape_row h w b i Hb Hi) as Lb.
  destruct Hm as [Hm _], Ht as [Ht _], Hb as [Hb _].
  rewrite (list_lookup_total_correct _ i
    (zip_with (fun (m0 : Z) (p : Z * Z) => if decide (m0 = 1%Z) then p.1 else p.2)
       (m !!! i) (zip (t !!! i) (b !!! i)))).
  - apply list_lookup_total_correct.
    rewrite lookup_zip_with.
    rewrite (list_lookup_lookup_total_lt (m !!! i)) by lia. simpl.
    rewrite lookup_zip_with.
    rewrite (list_lookup_lookup_total_lt (t !!! i)) by lia. simpl.
    rewrite (list_lookup_lookup_total_lt (b !!! i)) by lia. simpl.
    reflexivity.
  - rewrite lookup_zip_with.
    rewrite (list_lookup_lookup_total_lt m) by lia. simpl.
    rewrite lookup_zip_with.
    rewrite (list_lookup_lookup_total_lt t) by lia. simpl.
    rewrite (list_lookup_lookup_total_lt b) by lia. simpl.
    reflexivity.
Qed.

(** An array that fits is written: the shape of the band is kept, the
    pixels of the window are the array's and all others are untouched. *)
Lemma write_array_fits (rows cols h w : nat) (band array : ndarray) (xoff yoff : nat) :
  has_shape rows cols band -> has_shape h w array ->
  yoff + h <= rows -> xoff + w <= shape1 band ->
  exists band',
    write_array band array xoff yoff = Return band' /\
    has_shape rows cols band' /\
    forall y x, y < rows -> x < cols ->
      at2 band' y x
      = if decide ((yoff <= y < yoff + h) /\ (xoff <= x < xoff + w))
        then at2 array (y - yoff) (x - xoff)
        else at2 band y x.
Proof.
  intros Hband Harr Hy Hx. unfold write_array.
  pose proof (shape1_le h w array Harr) as Hw.
  pose proof (shape1_eq h w array Harr) as Ew.
  assert (shape0 array = h) as Eh by apply Harr.
  assert (shape0 band = rows) as Er by apply Hband.
  rewrite decide_True by lia.
  eexists. split; [reflexivity|]. split.
  - destruct Hband as [Hb1 Hb2]. split.
    + rewrite length_imap. assumption.
    + apply Forall_lookup. intros y row Hrow.
      rewrite list_lookup_imap in Hrow.
      destruct (band !! y) as [brow|] eqn:Eb; simpl in Hrow; [|discriminate].
      injection Hrow as <-. rewrite length_imap.
      rewrite Forall_lookup in Hb2. exact (Hb2 _ _ Eb).
  - intros y x Hyr Hxc. unfold at2 at 1.
    pose proof (has_shape_row rows cols band y Hband Hyr) as Lrow.
    destruct Hband as [Hb1 _].
    rewrite (list_lookup_total_correct _ y
      (imap (fun x0 v =>
         if decide ((yoff <= y < yoff + shape0 array) /\
                    (xoff <= x0 < xoff + shape1 array))
         then at2 array (y - yoff) (x0 - xoff) else v) (band !!! y))).
    2:{ rewrite list_lookup_imap.
        rewrite (list_lookup_lookup_total_lt band) by lia. reflexivity. }
    rewrite (list_lookup_total_correct _ x
      (if decide ((yoff <= y < yoff + shape0 array) /\
                  (xoff <= x < xoff + shape1 array))
       then at2 array (y - yoff) (x - xoff) else (band !!! y) !!! x)).
    2:{ rewrite list_lookup_imap.
        rewrite (list_lookup_lookup_total_lt (band !!! y)) by lia. reflexivity. }
    rewrite Eh, Ew. fold (at2 band y x).
    destruct (decide (h = 0)) as [->|Hh].
    + rewrite decide_False by lia. rewrite decide_False by lia. reflexivity.
    + reflexivity.
Qed.

(** Two arrays of one shape with the same pixels are equal. *)
Lemma ndarray_eq (rows cols : nat) (a b : ndarray) :
  has_shape rows cols a -> has_shape rows cols b ->
  (forall y x, y < rows -> x < cols -> at2 a y x = at2 b y x) ->
  a = b.
Proof.
  intros Ha Hb Heq. apply list_eq; intros y.
  destruct (decide (y < rows)) as [Hy|Hy].
  - pose proof (has_shape_row rows cols a y Ha Hy) as La.
    pose proof (has_shape_row rows cols b y Hb Hy) as Lb.
    destruct Ha as [Ha _], Hb as [Hb _].
    rewrite (list_lookup_lookup_total_lt a), (list_lookup_lookup_total_lt b) by lia.
    f_equal. apply list_eq; intros x.
    destruct (decide (x < cols)) as [Hx|Hx].
    + rewrite (list_lookup_lookup_total_lt (a !!! y)),
              (list_lookup_lookup_total_lt (b !!! y)) by lia.
      f_equal. apply (Heq y x Hy Hx).
    + rewrite !(proj2 (lookup_ge_None _ _)) by lia. reflexivity.
  - destruct Ha as [Ha _], Hb as [Hb _].
    rewrite !(proj2 (lookup_ge_None _ _)) by lia. reflexivity.
Qed.

(** The loop over blocks that lie within the raster returns; a pixel that
    some block contains holds the wallpaper's value at its absolute position
    where the mask is 1 and the base raster's value elsewhere, and a pixel
    that no block contains is untouched. *)
Lemma wallpaper_loop_spec (H W rows cols : nat)
    (wallpaper_array parcel_mask_band base_raster : ndarray)
    (blocks : list offset_dict) (target_band : ndarray) :
  0 < H -> 0 < W -> has_shape H W wallpaper_array ->
  has_shape rows cols parcel_mask_band -> has_shape rows cols base_raster ->
  has_shape rows cols target_band ->
  Forall (in_raster (shape0 parcel_mask_band) (shape1 parcel_mask_band)) blocks ->
  exists out,
    wallpaper_loop wallpaper_array parcel_mask_band base_raster blocks target_band
      = Return out /\
    has_shape rows cols out /\
    forall y x, y < rows -> x < cols ->
      at2 out y x
      = if covered blocks y x
        then wallpapered_at wallpaper_array parcel_mask_band base_raster y x
        else at2 target_band y x.
Proof.
  intros HH HW Ha Hm Hb Ht Hblocks. revert target_band Ht.
  induction Hblocks as [|o rest Ho _ IH]; intros target_band Ht.
  - exists target_band. split; [reflexivity|]. split; [assumption|].
    intros y x _ _. reflexivity.
  - destruct Ho as [Hoy Hox].
    assert (shape0 parcel_mask_band = rows) as Er by apply Hm.
    pose proof (shape1_le rows cols _ Hm) as Hc.
    assert (shape1 target_band = shape1 parcel_mask_band) as Es
      by (rewrite (shape1_eq rows cols _ Hm), (shape1_eq rows cols _ Ht); reflexivity).
    rewrite Er in Hoy.
    set (mwin := slice2 parcel_mask_band (yoff o) (win_ysize o) (xoff o) (win_xsize o)).
    set (bwin := slice2 base_raster (yoff o) (win_ysize o) (xoff o) (win_xsize o)).
    set (tiled := wallpaper_window wallpaper_array (xoff o) (yoff o)
                    (win_xsize o) (win_ysize o)).
    assert (has_shape (win_ysize o) (win_xsize o) mwin) as Hmw
      by (apply (slice2_has_shape rows cols); [assumption | lia | lia]).
    assert (has_shape (win_ysize o) (win_xsize o) bwin) as Hbw
      by (apply (slice2_has_shape rows cols); [assumption | lia | lia]).
    assert (has_shape (win_ysize o) (win_xsize o) tiled) as Htw
      by apply wallpaper_window_has_shape.
    pose proof (np_where_eq1_has_shape _ _ mwin tiled bwin Hmw Htw Hbw) as Hwhere.
    destruct (write_array_fits rows cols (win_ysize o) (win_xsize o) target_band
                (np_where_eq1 mwin tiled bwin) (xoff o) (yoff o) Ht Hwhere)
      as (t1 & Hwrite & Ht1 & Hpix); [lia | lia |].
    destruct (IH t1 Ht1) as (out & Hloop & Hout & Hfinal).
    exists out. split.
    + simpl. unfold read_as_array.
      rewrite decide_True by (split; lia).
      rewrite (wallpaper_tiled_window H W) by assumption. simpl.
      fold mwin bwin tiled. rewrite Hwrite. simpl. exact Hloop.
    + split; [assumption|]. intros y x Hy Hx.
      rewrite (Hfinal y x Hy Hx). simpl.
      destruct (covered rest y x); [rewrite orb_true_r; reflexivity|].
      rewrite orb_false_r. rewrite (Hpix y x Hy Hx). unfold in_window.
      destruct (decide ((yoff o <= y < yoff o + win_ysize o) /\
                        (xoff o <= x < xoff o + win_xsize o))) as [Hin|Hout'].
      * rewrite bool_decide_eq_true_2 by assumption.
        rewrite (at2_np_where_eq1 (win_ysize o) (win_xsize o)) by (assumption || lia).
        unfold mwin, bwin, tiled.
        destruct Hm as [Hm1 _], Hb as [Hb1 _].
        rewrite !at2_slice2 by lia.
        rewrite at2_wallpaper_window by lia.
        replace (yoff o + (y - yoff o)) with y by lia.
        replace (xoff o + (x - xoff o)) with x by lia.
        reflexivity.
      * rewrite bool_decide_eq_false_2 by assumption. reflexivity.
Qed.

(** X1.  The block loop of [wallpaper_parcel], run over blocks that lie
    within the raster, returns a raster of the same shape in which every
    pixel that some block contains holds the wallpaper's value at its
    absolute position modulo the pattern's shape where the mask is 1 and
    the base raster's value elsewhere; a pixel that no block contains keeps
    what the target held. *)
Theorem wallpaper_loop_pixels (H W rows cols : nat)
    (wallpaper_array parcel_mask_band base_raster : ndarray)
    (blocks : list offset_dict) (target_band : ndarray) :
  0 < H -> 0 < W -> has_shape H W wallpaper_array ->
  has_shape rows cols parcel_mask_band -> has_shape rows cols base_raster ->
  has_shape rows cols target_band ->
  Forall (in_raster (shape0 parcel_mask_band) (shape1 parcel_mask_band)) blocks ->
  exists out,
    wallpaper_loop wallpaper_array parcel_mask_band base_raster blocks target_band
      = Return out /\
    has_shape rows cols out /\
    forall y x, y < rows -> x < cols ->
      at2 out y x
      = if covered blocks y x
        then (if decide (at2 parcel_mask_band y x = 1%Z)
              then wallpaper_at wallpaper_array y x
              else at2 base_raster y x)
        else at2 target_band y x.
Proof. exact (wallpaper_loop_spec H W rows cols wallpaper_array parcel_mask_band
                base_raster blocks target_band). Qed.

Lemma wallpaper_loop_pixels_witness :
  exists out,
    wallpaper_loop [[7; 8]]%Z [[1; 0; 1]; [0; 1; 1]]%Z [[20; 21; 22]; [23; 24; 25]]%Z
      [OffsetDict 1 0 2 2] [[0; 0; 0]; [0; 0; 0]]%Z = Return out /\
    has_shape 2 3 out /\
    forall y x, y < 2 -> x < 3 ->
      at2 out y x
      = if covered [OffsetDict 1 0 2 2] y x
        then (if decide (at2 [[1; 0; 1]; [0; 1; 1]]%Z y x = 1%Z)
              then wallpaper_at [[7; 8]]%Z y x
              else at2 [[20; 21; 22]; [23; 24; 25]]%Z y x)
        else at2 [[0; 0; 0]; [0; 0; 0]]%Z y x.
Proof.
  apply (wallpaper_loop_pixels 1 2 2 3); try lia;
    try (split; [reflexivity | repeat constructor]).
  repeat constructor; simpl; lia.
Defined.

(** X2.  The result of the loop does not depend on how the raster is cut
    into blocks, on the order of the blocks, or on what the target held
    before: two runs whose blocks lie within the raster and together
    contain every pixel return the same raster. *)
Theorem wallpaper_loop_blocking_independent (H W rows cols : nat)
    (wallpaper_array parcel_mask_band base_raster : ndarray)
    (blocks1 blocks2 : list offset_dict) (target1 target2 : ndarray) :
  0 < H -> 0 < W -> has_shape H W wallpaper_array ->
  has_shape rows cols parcel_mask_band -> has_shape rows cols base_raster ->
  has_shape rows cols target1 -> has_shape rows cols target2 ->
  Forall (in_raster (shape0 parcel_mask_band) (shape1 parcel_mask_band)) blocks1 ->
  Forall (in_raster (shape0 parcel_mask_band) (shape1 parcel_mask_band)) blocks2 ->
  (forall y x, y < rows -> x < cols -> covered blocks1 y x = true) ->
  (forall y x, y < rows -> x < cols -> covered blocks2 y x = true) ->
  exists out,
    wallpaper_loop wallpaper_array parcel_mask_band base_raster blocks1 target1
      = Return out /\
    wallpaper_loop wallpaper_array parcel_mask_band base_raster blocks2 target2
      = Return out.
Proof.
  intros HH HW Ha Hm Hb Ht1 Ht2 Hb1 Hb2 Hc1 Hc2.
  destruct (wallpaper_loop_spec H W rows cols _ _ _ blocks1 target1
              HH HW Ha Hm Hb Ht1 Hb1) as (out1 & E1 & S1 & P1).
  destruct (wallpaper_loop_spec H W rows cols _ _ _ blocks2 target2
              HH HW Ha Hm Hb Ht2 Hb2) as (out2 & E2 & S2 & P2).
  exists out1. split; [exact E1|]. rewrite E2. f_equal.
  apply (ndarray_eq rows cols); [assumption | assumption |].
  intros y x Hy Hx.
  rewrite (P1 y x Hy Hx), (P2 y x Hy Hx), (Hc1 y x Hy Hx), (Hc2 y x Hy Hx).
  reflexivity.
Qed.

Lemma covered_two_by_three (blocks : list offset_dict) :
  forallb (fun y => forallb (fun x => covered blocks y x) (seq 0 3)) (seq 0 2) = true ->
  forall y x, y < 2 -> x < 3 -> covered blocks y x = true.
Proof.
  intros Hall y x Hy Hx.
  rewrite forallb_forall in Hall.
  assert (In y (seq 0 2)) as Iy by (apply in_seq; lia).
  specialize (Hall y Iy). rewrite forallb_forall in Hall.
  apply Hall, in_seq. lia.
Qed.

Lemma wallpaper_loop_blocking_independent_witness :
  exists out,
    wallpaper_loop [[7; 8]]%Z [[1; 0; 1]; [0; 1; 1]]%Z [[20; 21; 22]; [23; 24; 25]]%Z
      [OffsetDict 0 0 3 2] [[0; 0; 0]; [0; 0; 0]]%Z = Return out /\
    wallpaper_loop [[7; 8]]%Z [[1; 0; 1]; [0; 1; 1]]%Z [[20; 21; 22]; [23; 24; 25]]%Z
      [OffsetDict 2 0 1 2; OffsetDict 0 0 2 1; OffsetDict 0 1 2 1]
      [[9; 9; 9]; [9; 9; 9]]%Z = Return out.
Proof.
  apply (wallpaper_loop_blocking_independent 1 2 2 3); try lia;
    try (split; [reflexivity | repeat constructor]).
  - repeat constructor; simpl; lia.
  - repeat constructor; simpl; lia.
  - apply covered_two_by_three. reflexivity.
  - apply covered_two_by_three. reflexivity.
Defined.

Lemma rasterize_has_shape (rows cols : nat) (touched : Fill.footprint) (burn : Z)
    (a : ndarray) :
  has_shape rows cols a -> has_shape rows cols (Fill.rasterize touched burn a).
Proof.
  intros [Ha1 Ha2]. unfold Fill.rasterize. split.
  - rewrite length_imap. assumption.
  - apply Forall_lookup. intros y row Hrow.
    rewrite list_lookup_imap in Hrow.
    destruct (a !! y) as [arow|] eqn:Ea; simpl in Hrow; [|discriminate].
    injection Hrow as <-. rewrite length_imap.
    rewrite Forall_lookup in Ha2. exact (Ha2 _ _ Ea).
Qed.

Lemma at2_rasterize (rows cols : nat) (touched : Fill.footprint) (burn : Z)
    (a : ndarray) (y x : nat) :
  has_shape rows cols a -> y < rows -> x < cols ->
  at2 (Fill.rasterize touched burn a) y x
  = if touched y x then burn else at2 a y x.
Proof.
  intros Ha Hy Hx. unfold at2, Fill.rasterize.
  pose proof (has_shape_row rows cols a y Ha Hy) as Lrow.
  destruct Ha as [Ha1 _].
  rewrite (list_lookup_total_correct _ y
    (imap (fun j v => if touched y j then burn else v) (a !!! y))).
  2:{ rewrite list_lookup_imap.
      rewrite (list_lookup_lookup_total_lt a) by lia. reflexivity. }
  apply list_lookup_total_correct.
  rewrite list_lookup_imap.
  rewrite (list_lookup_lookup_total_lt (a !!! y)) by lia. reflexivity.
Qed.

(** X4.  The mask that [wallpaper_parcel] tests against 1 is the raster
    that [fill_parcel] made with class 1, which keeps the base LULC values
    outside the parcel.  So a pixel that a block contains is replaced by
    the wallpaper exactly when the parcel touches it or the base LULC holds
    class 1 there; every other pixel holds the value of the raster under
    the parcel. *)
Theorem wallpaper_parcel_replaced_pixels (H W rows cols : nat) (nodata : option Z)
    (lulc_window nlud_under_parcel wallpaper_array : ndarray)
    (touched : Fill.footprint) (blocks : list offset_dict) (target_band : ndarray) :
  0 < H -> 0 < W -> has_shape H W wallpaper_array ->
  has_shape rows cols lulc_window -> has_shape rows cols nlud_under_parcel ->
  has_shape rows cols target_band ->
  Forall (in_raster (shape0 lulc_window) (shape1 lulc_window)) blocks ->
  exists out,
    wallpaper_parcel_pixels nodata lulc_window nlud_under_parcel wallpaper_array
      touched blocks target_band = Return out /\
    forall y x, y < rows -> x < cols -> covered blocks y x = true ->
      at2 out y x
      = if touched y x || bool_decide (at2 lulc_window y x = 1%Z)
        then wallpaper_at wallpaper_array y x
        else at2 nlud_under_parcel y x.
Proof.
  intros HH HW Ha Hl Hn Ht Hblocks.
  unfold wallpaper_parcel_pixels, parcel_mask_raster, Fill.fill_parcel_pixels,
    Fill.create_new_lulc_pixels.
  pose proof (rasterize_has_shape rows cols touched 1%Z lulc_window Hl) as Hm.
  assert (shape0 (Fill.rasterize touched 1%Z lulc_window) = shape0 lulc_window
          /\ shape1 (Fill.rasterize touched 1%Z lulc_window) = shape1 lulc_window)
    as [E0 E1].
  { split.
    - unfold shape0. destruct Hm as [Hm0 _], Hl as [Hl0 _]. congruence.
    - rewrite (shape1_eq rows cols _ Hm), (shape1_eq rows cols _ Hl). reflexivity. }
  destruct (wallpaper_loop_spec H W rows cols wallpaper_array
              (Fill.rasterize touched 1%Z lulc_window) nlud_under_parcel blocks
              target_band HH HW Ha Hm Hn Ht)
    as (out & E & _ & P); [rewrite E0, E1; assumption|].
  exists out. split; [exact E|].
  intros y x Hy Hx Hc. rewrite (P y x Hy Hx), Hc.
  unfold wallpapered_at. rewrite (at2_rasterize rows cols) by assumption.
  destruct (touched y x).
  - rewrite decide_True by reflexivity. reflexivity.
  - rewrite orb_false_l.
    destruct (decide (at2 lulc_window y x = 1%Z)) as [E1'|N1].
    + rewrite bool_decide_eq_true_2 by assumption. reflexivity.
    + rewrite bool_decide_eq_false_2 by assumption. reflexivity.
Qed.

Lemma wallpaper_parcel_replaced_pixels_witness :
  exists out,
    wallpaper_parcel_pixels (Some 0%Z) [[1; 5; 5]; [5; 5; 1]]%Z
      [[20; 21; 22]; [23; 24; 25]]%Z [[7; 8]]%Z
      (fun y x => Nat.eqb y 0 && Nat.eqb x 1) [OffsetDict 0 0 3 2]
      [[0; 0; 0]; [0; 0; 0]]%Z = Return out /\
    forall y x, y < 2 -> x < 3 -> covered [OffsetDict 0 0 3 2] y x = true ->
      at2 out y x
      = if (Nat.eqb y 0 && Nat.eqb x 1)
           || bool_decide (at2 [[1; 5; 5]; [5; 5; 1]]%Z y x = 1%Z)
        then wallpaper_at [[7; 8]]%Z y x
        else at2 [[20; 21; 22]; [23; 24; 25]]%Z y x.
Proof.
  apply (wallpaper_parcel_replaced_pixels 1 2 2 3); try lia;
    try (split; [reflexivity | repeat constructor]).
  repeat constructor; simpl; lia.
Defined.

End WallpaperLoopFacts.

(** ** The payload and the loop *)

Section PollerFacts.

Import Dispatch Poller.

Variable ops : operations.
Variables scenarios_dir model_outputs_dir : string.

(** What holds of everything a continuation returns holds of what the
    sequence returns. *)
Lemma bind_returns {A B : Type} (P : B -> Prop) (m : traced A) (f : A -> traced B) :
  (forall a t d, f a = (t, inr d) -> P d) ->
  forall t d, (m ≫= f) = (t, inr d) -> P d.
Proof.
  intros Hf t d. unfold mbind, traced_bind.
  destruct m as [t1 [e|a]]; [discriminate|].
  destruct (f a) as [t2 r] eqn:E. intros [= _ ->]. exact (Hf a t2 d E).
Qed.

(** When the body of the [try] returns, [data] has the single key 'result',
    with a dict as its value. *)
Lemma try_body_returns (j : job) (t : list string) (data : gmap string pyval) :
  try_body ops scenarios_dir model_outputs_dir j = (t, inr data) ->
  exists body, data = {[ "result" := PDict body ]}.
Proof.
  revert t data. unfold try_body. cbv zeta.
  repeat first [ case_decide | apply bind_returns; intros ? ];
    intros t data E; try discriminate E;
    injection E as _ <-; eexists; reflexivity.
Qed.

(** The payload of a job whose tag has an endpoint. *)
Lemma process_job_posted (j : job) (endpoint : string) :
  ENDPOINTS !! job_type j = Some endpoint ->
  exists data,
    ended (process_job ops scenarios_dir model_outputs_dir j) = Posted endpoint data /\
    dom data = ({[ "result"; "server_attrs"; "status" ]} : gset string) /\
    data !! "server_attrs" = Some (PAttrs (server_attrs j)) /\
    ((exists body, data !! "status" = Some (PStr STATUS_SUCCESS) /\
                   data !! "result" = Some (PDict body))
     \/ data = failure_payload j).
Proof.
  intros Hep. unfold process_job.
  destruct (try_body ops scenarios_dir model_outputs_dir j) as [t [e|d]] eqn:E.
  - rewrite Hep. eexists. split; [reflexivity|]. fold (failure_payload j).
    split; [|split; [reflexivity | right; reflexivity]].
    unfold failure_payload. rewrite !dom_insert_L, dom_singleton_L. set_solver.
  - destruct (try_body_returns j t d E) as [body ->].
    rewrite Hep. eexists. split; [reflexivity|].
    split; [|split; [reflexivity | left; exists body; split; reflexivity]].
    rewrite !dom_insert_L, dom_singleton_L. set_solver.
Qed.


(** X5.  For a job whose tag has an endpoint, whatever its operations do,
    the loop body ends with a post to that endpoint, and the payload has
    exactly the keys 'result', 'server_attrs' and 'status'; it carries the
    job's server attributes, and it is either a success with a dict as
    result or the one failure payload. *)
Theorem process_job_payload_shape (j : job) (endpoint : string) :
  ENDPOINTS !! job_type j = Some endpoint ->
  exists data,
    ended (process_job ops scenarios_dir model_outputs_dir j) = Posted endpoint data /\
    dom data = ({[ "result"; "server_attrs"; "status" ]} : gset string) /\
    data !! "server_attrs" = Some (PAttrs (server_attrs j)) /\
    ((exists body, data !! "status" = Some (PStr STATUS_SUCCESS) /\
                   data !! "result" = Some (PDict body))
     \/ data = failure_payload j).
Proof. exact (process_job_posted j endpoint). Qed.


(** X7.  When the transport does not fail (every fetch is answered and
    every post returns), the output directories can be made and every
    answer that carries work is an envelope with all its keys and a tag that
    has an endpoint, no exception leaves the loop: it posts one result per
    fetched job, in the order of the jobs, each to the endpoint of the job's
    tag and with the job's server attributes. *)
Theorem poll_posts_every_job (post : string -> gmap string pyval -> result unit)
    (exists_ : string -> bool) (responses : list answer) :
  (forall endpoint data, post endpoint data = Return ()) ->
  make_output_dirs ops exists_ scenarios_dir model_outputs_dir = Return () ->
  Forall answered responses ->
  exists posts,
    poll ops post exists_ scenarios_dir model_outputs_dir responses = (posts, None) /\
    Forall2 (fun (p : string * gmap string pyval) (j : job) =>
               ENDPOINTS !! job_type j = Some p.1 /\
               p.2 !! "server_attrs" = Some (PAttrs (server_attrs j)))
            posts (jobs_of responses).
Proof.
  intros Hpost Hdirs Hall. induction Hall as [|r responses Hr _ IH].
  - exists []. split; [reflexivity | constructor].
  - destruct IH as (posts & Epoll & Hposts). destruct r as [err| |e].
    + destruct Hr.
    + exists posts. split; [exact Epoll | exact Hposts].
    + destruct Hr as (j & endpoint & Hload & Hep).
      destruct (process_job_posted j endpoint Hep) as (data & Hend & _ & Hattrs & _).
      exists ((endpoint, data) :: posts). split.
      * simpl. rewrite Hload. unfold Return. rewrite Hdirs. unfold Return.
        rewrite Hend, Hpost. unfold Return. rewrite Epoll. reflexivity.
      * unfold jobs_of. simpl. rewrite Hload. simpl.
        constructor; [split; assumption | exact Hposts].
Qed.

(** X8.  An envelope that lacks 'server_attrs', 'job_type' or 'job_args',
    or whose server attributes lack 'job_id', raises [KeyError] before the
    [try]: nothing is posted for it, the exception leaves the loop and the
    answers after it are never fetched. *)
Theorem poll_malformed_envelope_escapes
    (post : string -> gmap string pyval -> result unit)
    (exists_ : string -> bool) (e : envelope) (rest : list answer) :
  env_server_attrs e = None \/
  (exists attrs, env_server_attrs e = Some attrs /\ attrs !! "job_id" = None) \/
  env_job_type e = None \/ env_job_args e = None ->
  exists k,
    k ∈ ["server_attrs"; "job_id"; "job_type"; "job_args"] /\
    poll ops post exists_ scenarios_dir model_outputs_dir (Work e :: rest)
    = ([], Some (KeyError k)).
Proof.
  intros Hmissing. simpl.
  unfold load_job, envelope_item, mbind, result_bind, Return, Raise.
  destruct (env_server_attrs e) as [attrs|]; cbn beta iota.
  - destruct (attrs !! "job_id") as [job_id|] eqn:Eid; cbn beta iota.
    + destruct (env_job_type e) as [jt|]; cbn beta iota.
      * destruct (env_job_args e) as [args|]; cbn beta iota.
        -- exfalso. destruct Hmissing as [H|[(a & H & H')|[H|H]]];
             try discriminate. injection H as <-. congruence.
        -- exists "job_args". split; [|reflexivity].
           do 3 apply list_elem_of_further. apply list_elem_of_here.
      * exists "job_type". split; [|reflexivity].
        do 2 apply list_elem_of_further. apply list_elem_of_here.
    + exists "job_id". split; [|reflexivity].
      apply list_elem_of_further, list_elem_of_here.
  - exists "server_attrs". split; [apply list_elem_of_here | reflexivity].
Qed.


(** X9.  A crop, fill, wallpaper or parcel-stats job without the argument
    'target_parcel_wkt' is reported as failed to the endpoint of its tag,
    and no raster operation and no pixel count is started for it: at most
    the workspace and the temporary directory of the wallpaper are made. *)
Theorem missing_parcel_wkt_reported_failed (j : job) :
  job_type j ∈ [JOBTYPE_FILL; JOBTYPE_WALLPAPER; JOBTYPE_CROP; JOBTYPE_PARCEL_STATS] ->
  job_args j !! "target_parcel_wkt" = None ->
  exists endpoint,
    ENDPOINTS !! job_type j = Some endpoint /\
    ended (process_job ops scenarios_dir model_outputs_dir j)
      = Posted endpoint (failure_payload j) /\
    Forall (fun name => name = "makedirs" \/ name = "mkdtemp")
           (started (process_job ops scenarios_dir model_outputs_dir j)).
Proof.
  intros Hty Hwkt.
  rewrite !elem_of_cons, elem_of_nil in Hty.
  unfold process_job, try_body, mbind, traced_bind, getitem, run, swallow,
    mret, traced_ret, Return, Raise.
  cbv zeta. rewrite Hwkt.
  destruct Hty as [E|[E|[E|[E|[]]]]]; rewrite E;
    repeat (case_decide; try discriminate); try congruence;
    try (exfalso;
         match goal with
         | H : ~ (_ ∈ _) |- _ => apply H; rewrite !elem_of_cons; auto 10
         end; fail);
    try (exfalso;
         match goal with
         | H : _ ∈ _ |- _ =>
             rewrite !elem_of_cons, elem_of_nil in H;
             destruct H as [H|[H|[H|[]]]]; discriminate H
         end; fail);
    destruct (server_attrs j !! "scenario_id") as [sid|]; cbn beta iota;
    try destruct (op_makedirs ops _) as [e1|[]]; cbn beta iota;
    try destruct (op_mkdtemp ops _) as [e2|tmp]; cbn beta iota;
    eexists; (split; [reflexivity|]); (split; [reflexivity|]);
    repeat first [apply Forall_nil_2 | apply Forall_cons_2; [auto|]].
Qed.

(** X28.  Nothing in the loop catches a failure of the transport.  A fetch
    that raises leaves the loop with its exception.  So does the post of a
    job's result, for a job with all its keys and a tag that has an
    endpoint, whatever the job itself did; in both cases nothing is posted
    and the answers that follow are never fetched. *)
Theorem poll_transport_failure_escapes
    (post : string -> gmap string pyval -> result unit)
    (exists_ : string -> bool) (e : envelope) (j : job) (endpoint : string)
    (err : py_exn) (rest : list answer) :
  load_job e = Return j ->
  ENDPOINTS !! job_type j = Some endpoint ->
  make_output_dirs ops exists_ scenarios_dir model_outputs_dir = Return () ->
  (forall data, post endpoint data = Raise err) ->
  poll ops post exists_ scenarios_dir model_outputs_dir (FetchRaises err :: rest)
  = ([], Some err) /\
  poll ops post exists_ scenarios_dir model_outputs_dir (Work e :: rest)
  = ([], Some err).
Proof.
  intros Hload Hep Hdirs Hpost. split; [reflexivity|].
  destruct (process_job_posted j endpoint Hep) as (data & Hend & _).
  simpl. rewrite Hload. unfold Return. rewrite Hdirs. unfold Return.
  rewrite Hend, Hpost. reflexivity.
Qed.

End PollerFacts.

Section PollerWitnesses.

Import Dispatch Poller.

Lemma process_job_payload_shape_witness :
  exists data,
    ended (process_job ok_operations "scenarios" "model_outputs"
             (Job JOBTYPE_PARCEL_STATS {[ "job_id" := "1" ]}
                  {[ "target_parcel_wkt" := "POLYGON ((0 0, 1 0, 1 1, 0 0))";
                     "lulc_source_url" := "lulc.tif" ]}))
      = Posted "parcel_stats" data /\
    dom data = ({[ "result"; "server_attrs"; "status" ]} : gset string) /\
    data !! "server_attrs" = Some (PAttrs {[ "job_id" := "1" ]}) /\
    ((exists body, data !! "status" = Some (PStr STATUS_SUCCESS) /\
                   data !! "result" = Some (PDict body))
     \/ data = failure_payload
                 (Job JOBTYPE_PARCEL_STATS {[ "job_id" := "1" ]}
                      {[ "target_parcel_wkt" := "POLYGON ((0 0, 1 0, 1 1, 0 0))";
                         "lulc_source_url" := "lulc.tif" ]})).
Proof.
  apply process_job_payload_shape. vm_compute. reflexivity.
Defined.



Lemma poll_posts_every_job_witness :
  let e := Envelope (Some {[ "job_id" := "1" ]}) (Some JOBTYPE_PARCEL_STATS)
                    (Some {[ "target_parcel_wkt" := "P" ]}) in
  exists posts,
    poll ok_operations (fun _ _ => Return ()) (fun _ => true)
         "scenarios" "model_outputs" [NoWork; Work e]
      = (posts, None) /\
    Forall2 (fun (p : string * gmap string pyval) (j : job) =>
               ENDPOINTS !! job_type j = Some p.1 /\
               p.2 !! "server_attrs" = Some (PAttrs (server_attrs j)))
            posts (jobs_of [NoWork; Work e]).
Proof.
  apply poll_posts_every_job.
  - reflexivity.
  - reflexivity.
  - repeat constructor. eexists _, _. split; reflexivity.
Defined.

Lemma poll_malformed_envelope_escapes_witness :
  exists k,
    k ∈ ["server_attrs"; "job_id"; "job_type"; "job_args"] /\
    poll ok_operations (fun _ _ => Return ()) (fun _ => true)
         "scenarios" "model_outputs"
      [Work (Envelope (Some ∅) (Some JOBTYPE_CROP) (Some ∅)); NoWork]
    = ([], Some (KeyError k)).
Proof.
  apply poll_malformed_envelope_escapes.
  right; left. exists ∅. split; reflexivity.
Defined.


Lemma missing_parcel_wkt_reported_failed_witness :
  let j := Job JOBTYPE_WALLPAPER {[ "job_id" := "1"; "scenario_id" := "7" ]}
               {[ "pattern_bbox_wkt" := "B" ]} in
  exists endpoint,
    ENDPOINTS !! job_type j = Some endpoint /\
    ended (process_job ok_operations "scenarios" "model_outputs" j)
      = Posted endpoint (failure_payload j) /\
    Forall (fun name => name = "makedirs" \/ name = "mkdtemp")
           (started (process_job ok_operations "scenarios" "model_outputs" j)).
Proof.
  apply missing_parcel_wkt_reported_failed.
  - apply list_elem_of_further, list_elem_of_here.
  - reflexivity.
Defined.

Lemma poll_transport_failure_escapes_witness :
  let e := Envelope (Some {[ "job_id" := "1" ]}) (Some JOBTYPE_PARCEL_STATS)
                    (Some {[ "target_parcel_wkt" := "P" ]}) in
  let post : string -> gmap string pyval -> result unit :=
    fun _ _ => Raise (LibraryError "ConnectionError") in
  poll ok_operations post (fun _ => true) "scenarios" "model_outputs"
    [FetchRaises (LibraryError "ConnectionError"); NoWork]
  = ([], Some (LibraryError "ConnectionError")) /\
  poll ok_operations post (fun _ => true) "scenarios" "model_outputs"
    [Work e; NoWork]
  = ([], Some (LibraryError "ConnectionError")).
Proof.
  apply (poll_transport_failure_escapes ok_operations "scenarios" "model_outputs"
           (fun _ _ => Raise (LibraryError "ConnectionError")) (fun _ => true)
           (Envelope (Some {[ "job_id" := "1" ]}) (Some JOBTYPE_PARCEL_STATS)
                     (Some {[ "target_parcel_wkt" := "P" ]}))
           (Job JOBTYPE_PARCEL_STATS {[ "job_id" := "1" ]}
                {[ "target_parcel_wkt" := "P" ]})
           "parcel_stats").
  - reflexivity.
  - reflexivity.
  - reflexivity.
  - reflexivity.
Defined.

End PollerWitnesses.

(** ** More on the serviceshed extent *)

Section GridExtraFacts.

Import Grid Serviceshed.

Lemma abs_mod_lt (a b : Z) : b <> 0 -> Z.abs (a mod b) < Z.abs b.
Proof.
  intros Hb. destruct (Z_lt_le_dec b 0) as [Hneg|Hpos].
  - pose proof (Z.mod_neg_bound a b Hneg). lia.
  - pose proof (Z.mod_pos_bound a b ltac:(lia)). lia.
Qed.

Lemma abs_mod_le (a b : Z) : b <> 0 -> Z.abs (a mod b) <= Z.abs b.
Proof. intros Hb. pose proof (abs_mod_lt a b Hb). lia. Qed.

(** X10.  Whatever the signs of the pixel sizes, no min edge moves
    inwards.  Along an axis with a positive pixel size the snapped interval
    contains the box's: the min edge moves outwards by at most one pixel,
    and the max edge moves outwards by at most one pixel. *)
Theorem snap_edges_pads_at_most_one_pixel (ri : raster_info) (b b' : bounds) :
  snap_edges ri b = Return b' ->
  minx b' <= minx b /\ miny b' <= miny b /\
  (0 < PIXELSIZE_X ri ->
     minx b - PIXELSIZE_X ri <= minx b' /\
     maxx b <= maxx b' <= maxx b + PIXELSIZE_X ri) /\
  (0 < PIXELSIZE_Y ri ->
     miny b - PIXELSIZE_Y ri <= miny b' /\
     maxy b <= maxy b' <= maxy b + PIXELSIZE_Y ri).
Proof.
  intros H.
  assert (PIXELSIZE_X ri <> 0) as Hx.
  { intros E. rewrite (snap_edges_zero_pixelsize ri b E) in H. discriminate. }
  assert (PIXELSIZE_Y ri <> 0) as Hy.
  { intros E. unfold snap_edges, float_mod in H.
    destruct (decide (PIXELSIZE_X ri = 0)); [contradiction|].
    destruct (decide (PIXELSIZE_Y ri = 0)); [discriminate | contradiction]. }
  rewrite snap_edges_returns in H by assumption. injection H as <-. simpl.
  pose proof (abs_mod_le (minx b - LULC_ORIGIN_X ri) _ Hx).
  pose proof (abs_mod_le (maxx b - LULC_ORIGIN_X ri) _ Hx).
  pose proof (abs_mod_le (miny b - LULC_ORIGIN_Y ri) _ Hy).
  pose proof (abs_mod_le (maxy b - LULC_ORIGIN_Y ri) _ Hy).
  lia.
Qed.

Lemma snap_edges_pads_at_most_one_pixel_witness :
  minx (Bounds 0 (-26) 120 6) <= 12 /\ miny (Bounds 0 (-26) 120 6) <= -3 /\
  (0 < 30 ->
     12 - 30 <= minx (Bounds 0 (-26) 120 6) /\
     100 <= maxx (Bounds 0 (-26) 120 6) <= 100 + 30) /\
  (0 < -30 ->
     -3 - -30 <= miny (Bounds 0 (-26) 120 6) /\
     58 <= maxy (Bounds 0 (-26) 120 6) <= 58 + -30).
Proof.
  apply (snap_edges_pads_at_most_one_pixel (RasterInfo 0 20 30 (-30))
           (Bounds 12 (-3) 100 58) (Bounds 0 (-26) 120 6)).
  reflexivity.
Defined.



(** X12.  The edge snapping raises [ZeroDivisionError] exactly when one of
    the two pixel sizes is zero; otherwise it returns a box. *)
Theorem snap_edges_raises_iff_zero_pixelsize (ri : raster_info) (b : bounds) :
  (snap_edges ri b = Raise ZeroDivisionError
   <-> PIXELSIZE_X ri = 0 \/ PIXELSIZE_Y ri = 0) /\
  ((exists b', snap_edges ri b = Return b')
   <-> PIXELSIZE_X ri <> 0 /\ PIXELSIZE_Y ri <> 0).
Proof.
  unfold snap_edges, float_mod, mbind, result_bind, Return, Raise.
  destruct (decide (PIXELSIZE_X ri = 0)) as [Hx|Hx];
    destruct (decide (PIXELSIZE_Y ri = 0)) as [Hy|Hy]; simpl;
    (split;
     [ split;
       [ intros H; try discriminate H; auto
       | intros [H|H]; try contradiction; reflexivity ]
     | split;
       [ intros [b' H]; try discriminate H; auto
       | intros [H1 H2]; try contradiction; eexists; reflexivity ] ]).
Qed.

Lemma snap_edges_raises_iff_zero_pixelsize_witness :
  snap_edges (RasterInfo 0 0 30 0) (Bounds 0 0 1 1) = Raise ZeroDivisionError.
Proof.
  apply (proj1 (snap_edges_raises_iff_zero_pixelsize (RasterInfo 0 0 30 0) (Bounds 0 0 1 1))).
  right. reflexivity.
Defined.

(** X13.  With a negative y pixel size the snapped box never contains the
    box: its top edge ends at least one pixel below the top edge of the
    box, while its bottom edge does not move up. *)
Theorem snap_edges_negative_y_cuts_top (ri : raster_info) (b b' : bounds) :
  PIXELSIZE_Y ri < 0 ->
  snap_edges ri b = Return b' ->
  maxy b' <= maxy b + PIXELSIZE_Y ri /\ miny b' <= miny b /\ ~ contains b' b.
Proof.
  intros Hy H.
  destruct (snap_edges_negative_pixelsize_y ri b b' Hy H) as [Htop Hnot].
  destruct (snap_edges_min_edges ri b b' H) as [_ Hbottom].
  repeat split; assumption.
Qed.

Lemma snap_edges_negative_y_cuts_top_witness :
  maxy (Bounds 0 (-110) 120 50) <= 100 + -30 /\
  miny (Bounds 0 (-110) 120 50) <= -100 /\
  ~ contains (Bounds 0 (-110) 120 50) (Bounds 0 (-100) 100 100).
Proof.
  apply (snap_edges_negative_y_cuts_top (RasterInfo 0 0 30 (-30))
           (Bounds 0 (-100) 100 100) (Bounds 0 (-110) 120 50)).
  - simpl; lia.
  - reflexivity.
Defined.

End GridExtraFacts.

(** ** More on the wallpaper tiling *)

Section TilerExtraFacts.

Import Tiler WallpaperLoop.
Local Open Scope nat_scope.

(** X14.  For a pattern of shape H x W with H, W > 0 the tiling step
    returns an array of the window's shape whose pixel (i, j) is the
    pattern's pixel at row (yoff + i) mod H and column (xoff + j) mod W. *)
Theorem wallpaper_tiled_pixels (H W : nat) (a : ndarray) (xoff yoff w h : nat) :
  0 < H -> 0 < W -> has_shape H W a ->
  exists out,
    wallpaper_tiled a xoff yoff w h = Return out /\
    has_shape h w out /\
    forall i j, i < h -> j < w ->
      at2 out i j = at2 a ((yoff + i) mod H) ((xoff + j) mod W).
Proof.
  intros HH HW Ha. exists (wallpaper_window a xoff yoff w h).
  split; [apply (wallpaper_tiled_window H W); assumption|].
  split; [apply wallpaper_window_has_shape|].
  intros i j Hi Hj. rewrite at2_wallpaper_window by assumption.
  unfold wallpaper_at, at2.
  rewrite (shape1_has_shape H W a HH Ha).
  replace (shape0 a) with H by (symmetry; apply Ha). reflexivity.
Qed.

Lemma wallpaper_tiled_pixels_witness :
  exists out,
    wallpaper_tiled [[1; 2; 3]; [4; 5; 6]]%Z 4 3 5 4 = Return out /\
    has_shape 4 5 out /\
    forall i j, i < 4 -> j < 5 ->
      at2 out i j = at2 [[1; 2; 3]; [4; 5; 6]]%Z ((3 + i) mod 2) ((4 + j) mod 3).
Proof.
  apply (wallpaper_tiled_pixels 2 3); try lia.
  split; [reflexivity | repeat constructor].
Defined.

(** X15.  The tiling is periodic: moving the window by whole multiples of
    the pattern's width and height gives the same array. *)
Theorem wallpaper_tiled_periodic (H W : nat) (a : ndarray)
    (xoff yoff w h kx ky : nat) :
  0 < H -> 0 < W -> has_shape H W a ->
  wallpaper_tiled a (xoff + kx * W) (yoff + ky * H) w h
  = wallpaper_tiled a xoff yoff w h.
Proof.
  intros HH HW Ha. rewrite !(wallpaper_tiled_window H W) by assumption.
  f_equal. unfold wallpaper_window.
  apply list_fmap_ext; intros _ i _. apply list_fmap_ext; intros _ j _.
  unfold wallpaper_at.
  rewrite (shape1_has_shape H W a HH Ha).
  replace (shape0 a) with H by (symmetry; apply Ha).
  replace (yoff + ky * H + i) with (yoff + i + ky * H) by lia.
  replace (xoff + kx * W + j) with (xoff + j + kx * W) by lia.
  rewrite !Nat.Div0.mod_add. reflexivity.
Qed.

Lemma wallpaper_tiled_periodic_witness :
  wallpaper_tiled [[1; 2; 3]; [4; 5; 6]]%Z (1 + 2 * 3) (1 + 5 * 2) 4 3
  = wallpaper_tiled [[1; 2; 3]; [4; 5; 6]]%Z 1 1 4 3.
Proof.
  apply (wallpaper_tiled_periodic 2 3); try lia.
  split; [reflexivity | repeat constructor].
Defined.

(** X16.  The window of the pattern's own size at the origin is the
    pattern. *)
Theorem wallpaper_tiled_pattern_itself (H W : nat) (a : ndarray) :
  0 < H -> 0 < W -> has_shape H W a ->
  wallpaper_tiled a 0 0 W H = Return a.
Proof.
  intros HH HW Ha. rewrite (wallpaper_tiled_window H W) by assumption.
  f_equal. apply (ndarray_eq H W); [apply wallpaper_window_has_shape | assumption |].
  intros y x Hy Hx. rewrite at2_wallpaper_window by assumption.
  unfold wallpaper_at, at2.
  rewrite (shape1_has_shape H W a HH Ha).
  replace (shape0 a) with H by (symmetry; apply Ha).
  rewrite !Nat.add_0_l, !Nat.mod_small by assumption. reflexivity.
Qed.

Lemma wallpaper_tiled_pattern_itself_witness :
  wallpaper_tiled [[1; 2; 3]; [4; 5; 6]]%Z 0 0 3 2 = Return [[1; 2; 3]; [4; 5; 6]]%Z.
Proof.
  apply (wallpaper_tiled_pattern_itself 2 3); try lia.
  split; [reflexivity | repeat constructor].
Defined.

(** X17.  A pattern without rows or without columns makes the tiling step
    raise [ZeroDivisionError], whatever the window; a pattern with both
    returns. *)
Theorem wallpaper_tiled_raises_iff_empty_pattern (H W : nat) (a : ndarray)
    (xoff yoff w h : nat) :
  has_shape H W a ->
  (wallpaper_tiled a xoff yoff w h = Raise ZeroDivisionError <-> H = 0 \/ W = 0).
Proof.
  intros Ha. split.
  - intros Hraise.
    destruct (decide (H = 0)) as [|HH]; [left; assumption|].
    destruct (decide (W = 0)) as [|HW]; [right; assumption|].
    rewrite (wallpaper_tiled_window H W) in Hraise by (assumption || lia).
    discriminate.
  - intros Hzero. unfold wallpaper_tiled, int_mod.
    destruct (decide (shape1 a = 0)) as [|Hne]; [reflexivity|].
    exfalso. apply Hne.
    rewrite (shape1_eq H W a Ha). destruct (decide (H = 0)); [reflexivity|].
    destruct Hzero; [contradiction | assumption].
Qed.

Lemma wallpaper_tiled_raises_iff_empty_pattern_witness :
  wallpaper_tiled [[]; []] 4 3 5 4 = Raise ZeroDivisionError <-> 2 = 0 \/ 0 = 0.
Proof.
  apply (wallpaper_tiled_raises_iff_empty_pattern 2 0).
  split; [reflexivity | repeat constructor].
Defined.

End TilerExtraFacts.

(** ** More on the pixel counts *)

Section StatsExtraFacts.

Import Tiler Stats UnderMask.
Local Open Scope nat_scope.

Lemma runs_nil (l : list Z) : runs l = [] -> l = [].
Proof.
  destruct l as [|x l]; [reflexivity|]. simpl.
  destruct (runs l) as [|[y c] r]; [discriminate|].
  destruct (decide (x = y)); discriminate.
Qed.

Lemma filter_eq_none (k : Z) (l : list Z) :
  Forall (fun v => v <> k) l -> filter (fun v : Z => v = k) l = [].
Proof.
  induction 1 as [|v l Hv _ IH]; [reflexivity|].
  rewrite filter_cons, decide_False by assumption. exact IH.
Qed.

(** The count of a run is the number of occurrences of its value. *)
Lemma runs_count (l : list Z) :
  StronglySorted Z.le l ->
  forall k c, (k, c) ∈ runs l -> c = length (filter (fun v : Z => v = k) l).
Proof.
  induction 1 as [|x l Hs IH Hx]; intros k c Hin; simpl in Hin.
  - inversion Hin.
  - pose proof (runs_keys_sorted l Hs) as Hkeys.
    destruct (runs l) as [|[y c'] r] eqn:E.
    + apply runs_nil in E. subst l.
      apply list_elem_of_singleton in Hin. injection Hin as -> ->.
      rewrite filter_cons, decide_True by reflexivity. reflexivity.
    + destruct (runs_head l y c' r E) as [l' El].
      simpl in Hkeys. apply StronglySorted_inv in Hkeys as [_ Hlt].
      assert (x <= y)%Z as Hxy by (subst l; inversion Hx; assumption).
      destruct (decide (x = y)) as [->|Hne].
      * apply elem_of_cons in Hin as [Hin|Hin].
        -- injection Hin as -> ->.
           rewrite filter_cons, decide_True by reflexivity. simpl.
           f_equal. apply IH, list_elem_of_here.
        -- assert (k <> y) as Hk.
           { rewrite Forall_forall in Hlt.
             assert (k ∈ r.*1) as Hkr
               by (apply list_elem_of_fmap; exists (k, c); split; [reflexivity | assumption]).
             specialize (Hlt k Hkr). lia. }
           rewrite filter_cons, decide_False by congruence.
           apply IH, list_elem_of_further. assumption.
      * apply elem_of_cons in Hin as [Hin|Hin].
        -- injection Hin as -> ->.
           rewrite filter_cons, decide_True by reflexivity. simpl. f_equal.
           rewrite filter_eq_none; [reflexivity|].
           assert (StronglySorted Z.le l) as Hs' by assumption.
           subst l. apply StronglySorted_inv in Hs' as [_ Hy].
           constructor; [lia|].
           eapply Forall_impl; [exact Hy|]. intros v Hv. simpl in Hv. lia.
        -- destruct (runs_elem l k c) as [_ Hkl]; [rewrite E; assumption|].
           assert (k <> x) as Hk.
           { rewrite Forall_forall in Hx. specialize (Hx k Hkl).
             intros ->.
             assert (StronglySorted Z.le l) as Hs' by assumption.
             subst l. apply StronglySorted_inv in Hs' as [_ Hy].
             apply elem_of_cons in Hkl as [->|Hkl]; [lia|].
             rewrite Forall_forall in Hy. specialize (Hy x Hkl). lia. }
           rewrite filter_cons, decide_False by congruence.
           apply IH. assumption.
Qed.

(** Every value of the list has a run. *)
Lemma runs_has_key (l : list Z) (k : Z) :
  k ∈ l -> exists c, (k, c) ∈ runs l.
Proof.
  induction l as [|x l IH]; intros Hin; [inversion Hin|]. simpl.
  apply elem_of_cons in Hin as [->|Hin].
  - destruct (runs l) as [|[y c] r].
    + eexists. apply list_elem_of_here.
    + destruct (decide (x = y)) as [->|_]; eexists; apply list_elem_of_here.
  - destruct (IH Hin) as [c Hc].
    destruct (runs l) as [|[y c'] r]; [inversion Hc|].
    destruct (decide (x = y)) as [->|_].
    + apply elem_of_cons in Hc as [Hc|Hc].
      * injection Hc as -> ->. eexists. apply list_elem_of_here.
      * eexists. apply list_elem_of_further. exact Hc.
    + eexists. apply list_elem_of_further. exact Hc.
Qed.

(** The dict maps every class code to its number of occurrences under the
    mask, and only the codes that occur. *)
Lemma pixelcounts_lookup (h w : nat) (array parcel_mask : ndarray) :
  has_shape h w array -> has_shape h w parcel_mask ->
  exists return_values,
    pixelcounts array parcel_mask = Return return_values /\
    forall k,
      return_values !! k
      = let n := length (filter (fun v : Z => v = k) (masked_select array parcel_mask)) in
        if decide (n = 0) then None else Some n.
Proof.
  intros Ha Hm. unfold pixelcounts, np_unique_counts.
  rewrite decide_True by (apply (has_shape_shape h w); assumption).
  rewrite zip_fst_snd.
  set (sel := masked_select array parcel_mask).
  assert (StronglySorted Z.le (merge_sort Z.le sel)) as Hsorted
    by (apply StronglySorted_merge_sort; apply _).
  set (u := runs (merge_sort Z.le sel)).
  assert (NoDup u.*1) as Hnd
    by (apply strictly_sorted_NoDup, runs_keys_sorted; assumption).
  pose proof (to_dict_Permutation u Hnd) as Hperm.
  assert (forall k c, to_dict u !! k = Some c <-> (k, c) ∈ u) as Hlook.
  { intros k c. rewrite <- elem_of_map_to_list, Hperm. reflexivity. }
  assert (forall k, length (filter (fun v : Z => v = k) (merge_sort Z.le sel))
                    = length (filter (fun v : Z => v = k) sel)) as Hcount.
  { intros k. rewrite merge_sort_Permutation. reflexivity. }
  eexists. split; [reflexivity|]. intros k. cbv zeta.
  destruct (to_dict u !! k) as [c|] eqn:E.
  - apply Hlook in E.
    pose proof (runs_count _ Hsorted k c E) as Hc. rewrite Hcount in Hc.
    destruct (runs_elem _ k c E) as [Hpos _].
    rewrite decide_False by lia. congruence.
  - destruct (decide (length (filter (fun v : Z => v = k) sel) = 0)) as [|Hn];
      [reflexivity|].
    exfalso.
    assert (k ∈ merge_sort Z.le sel) as Hk.
    { rewrite merge_sort_Permutation.
      destruct (filter (fun v : Z => v = k) sel) as [|v vs] eqn:Ef;
        [simpl in Hn; lia|].
      assert (v ∈ filter (fun v : Z => v = k) sel) as Hv
        by (rewrite Ef; apply list_elem_of_here).
      apply list_elem_of_filter in Hv as [-> Hv]. exact Hv. }
    destruct (runs_has_key _ k Hk) as [c Hc].
    apply Hlook in Hc. congruence.
Qed.

(** Counting through a map, and with an equivalent predicate. *)
Lemma length_filter_fmap {A B : Type} (f : A -> B) (P : B -> Prop)
    `{!forall y, Decision (P y)} (l : list A) :
  length (filter P (f <$> l)) = length (filter (fun x => P (f x)) l).
Proof.
  induction l as [|x l IH]; [reflexivity|].
  rewrite fmap_cons, !filter_cons.
  repeat case_decide; try contradiction; simpl; rewrite IH; reflexivity.
Qed.

Lemma length_filter_ext {A : Type} (P Q : A -> Prop)
    `{!forall x, Decision (P x)} `{!forall x, Decision (Q x)} (l : list A) :
  (forall x, P x <-> Q x) -> length (filter P l) = length (filter Q l).
Proof.
  intros HPQ. induction l as [|x l IH]; [reflexivity|].
  rewrite !filter_cons.
  repeat case_decide; simpl; rewrite ?IH; try reflexivity;
    exfalso; firstorder.
Qed.

(** In one row, the selected values equal to [k] are as many as the columns
    where the mask is 1 and the raster holds [k]. *)
Lemma count_masked_row (k : Z) (arow mrow : list Z) :
  length arow = length mrow ->
  length (filter (fun v : Z => v = k) (masked_row arow mrow))
  = length (filter (fun j : nat => mrow !! j = Some 1%Z /\ arow !! j = Some k)
              (seq 0 (length mrow))).
Proof.
  revert arow. induction mrow as [|m mrow IH]; intros [|v arow] Hlen;
    simpl in Hlen; try lia; [reflexivity|].
  cbn [length]. rewrite <- cons_seq, <- fmap_S_seq.
  assert (length (filter (fun j : nat => (m :: mrow) !! j = Some 1%Z /\
                                         (v :: arow) !! j = Some k)
                    (S <$> seq 0 (length mrow)))
          = length (filter (fun x : Z => x = k) (masked_row arow mrow))) as Htail.
  { rewrite length_filter_fmap, IH by lia.
    apply length_filter_ext. intros j. reflexivity. }
  rewrite (filter_cons _ 0).
  assert (masked_row (v :: arow) (m :: mrow)
          = if decide (m = 1%Z) then v :: masked_row arow mrow
            else masked_row arow mrow) as ->.
  { unfold masked_row. cbn [zip zip_with]. rewrite filter_cons. cbn [snd].
    destruct (decide (m = 1%Z)); reflexivity. }
  destruct (decide (m = 1%Z)) as [->|Hm].
  - rewrite filter_cons.
    destruct (decide (v = k)) as [->|Hv].
    + rewrite decide_True by (split; reflexivity).
      cbn [length]. rewrite Htail. reflexivity.
    + rewrite decide_False by (intros [_ [=]]; contradiction).
      rewrite Htail. reflexivity.
  - rewrite decide_False by (intros [[=] _]; contradiction).
    rewrite Htail. reflexivity.
Qed.

Lemma window_pixels_S (h w : nat) :
  window_pixels (S h) w
  = ((fun j => (0, j)) <$> seq 0 w)
    ++ ((fun p : nat * nat => (S p.1, p.2)) <$> window_pixels h w).
Proof.
  unfold window_pixels. rewrite <- cons_seq, bind_cons. f_equal.
  rewrite <- fmap_S_seq, list_fmap_bind.
  induction (seq 0 h) as [|i l IH]; [reflexivity|].
  rewrite !bind_cons, fmap_app, IH. f_equal.
  rewrite <- list_fmap_compose. reflexivity.
Qed.

(** The selected values equal to [k] are as many as the pixels of the window
    where the mask is 1 and the raster holds [k]. *)
Lemma count_masked_select (h w : nat) (array parcel_mask : ndarray) (k : Z) :
  has_shape h w array -> has_shape h w parcel_mask ->
  length (filter (fun v : Z => v = k) (masked_select array parcel_mask))
  = count_under_mask h w array parcel_mask k.
Proof.
  unfold count_under_mask, masked_select.
  revert h parcel_mask.
  induction array as [|arow array IH]; intros h [|mrow parcel_mask] [Ha1 Ha2] [Hm1 Hm2];
    simpl in Ha1, Hm1; try lia.
  - subst h. reflexivity.
  - destruct h as [|h]; [lia|].
    apply Forall_cons in Ha2 as [Ha Ha2]. apply Forall_cons in Hm2 as [Hm Hm2].
    rewrite window_pixels_S, filter_app, length_app, !length_filter_fmap.
    cbn [zip_with concat]. rewrite filter_app, length_app.
    f_equal.
    + rewrite count_masked_row by lia. rewrite Hm.
      apply length_filter_ext. intros j. reflexivity.
    + rewrite (IH h parcel_mask) by (split; [lia | assumption]).
      apply length_filter_ext. intros [i j]. reflexivity.
Qed.

(** X18.  For an array and a mask of one shape, the result maps each class
    code to exactly the number of pixels of the window where the mask is 1
    and the raster holds the code, and has no entry for a code that no such
    pixel holds. *)
Theorem pixelcounts_exact (h w : nat) (array parcel_mask : ndarray) :
  has_shape h w array -> has_shape h w parcel_mask ->
  exists return_values,
    pixelcounts array parcel_mask = Return return_values /\
    forall k,
      return_values !! k
      = let n := count_under_mask h w array parcel_mask k in
        if decide (n = 0) then None else Some n.
Proof.
  intros Ha Hm.
  destruct (pixelcounts_lookup h w array parcel_mask Ha Hm) as (rv & E & Hrv).
  exists rv. split; [exact E|]. intros k.
  rewrite Hrv. cbv zeta. rewrite (count_masked_select h w) by assumption.
  reflexivity.
Qed.

Lemma pixelcounts_exact_witness :
  exists return_values,
    pixelcounts [[262; 262]; [321; 7]]%Z [[1; 1]; [1; 0]]%Z = Return return_values /\
    forall k,
      return_values !! k
      = let n := count_under_mask 2 2 [[262; 262]; [321; 7]]%Z [[1; 1]; [1; 0]]%Z k in
        if decide (n = 0) then None else Some n.
Proof.
  apply (pixelcounts_exact 2 2); split; [reflexivity | repeat constructor
                                        | reflexivity | repeat constructor].
Defined.

(** The counts when one class code lies under the whole mask. *)
Lemma pixelcounts_one_class (h w : nat) (array parcel_mask : ndarray) (cls : Z) :
  has_shape h w array -> has_shape h w parcel_mask ->
  Forall (fun v => v = cls) (masked_select array parcel_mask) ->
  pixelcounts array parcel_mask
  = Return (if decide (count_ones parcel_mask = 0) then ∅
            else {[ cls := count_ones parcel_mask ]}).
Proof.
  intros Ha Hm Hall.
  destruct (pixelcounts_lookup h w array parcel_mask Ha Hm) as (rv & E & Hrv).
  rewrite E. f_equal. apply map_eq; intros k. rewrite Hrv. cbv zeta.
  pose proof (length_masked_select array parcel_mask
                (has_shape_same_rows h w _ _ Ha Hm)) as Hlen.
  destruct (decide (k = cls)) as [->|Hk].
  - assert (filter (fun v : Z => v = cls) (masked_select array parcel_mask)
            = masked_select array parcel_mask) as ->.
    { clear -Hall. induction Hall as [|v l Hv _ IH]; [reflexivity|].
      rewrite filter_cons, decide_True by assumption. f_equal. exact IH. }
    rewrite Hlen.
    destruct (decide (count_ones parcel_mask = 0)).
    + rewrite lookup_empty. reflexivity.
    + rewrite lookup_singleton_eq. reflexivity.
  - rewrite filter_eq_none
      by (eapply Forall_impl; [exact Hall|]; intros v ->; congruence).
    simpl.
    destruct (decide (count_ones parcel_mask = 0)).
    + rewrite lookup_empty. reflexivity.
    + rewrite lookup_singleton_ne by congruence. reflexivity.
Qed.

(** X19.  When every pixel under the mask holds one class code, the result
    is that code with the number of mask pixels equal to 1, and the empty
    dict when the mask has no pixel equal to 1. *)
Theorem pixelcounts_single_class (h w : nat) (array parcel_mask : ndarray) (cls : Z) :
  has_shape h w array -> has_shape h w parcel_mask ->
  Forall (fun v => v = cls) (masked_select array parcel_mask) ->
  pixelcounts array parcel_mask
  = Return (if decide (count_ones parcel_mask = 0) then ∅
            else {[ cls := count_ones parcel_mask ]}).
Proof. exact (pixelcounts_one_class h w array parcel_mask cls). Qed.

Lemma pixelcounts_single_class_witness :
  pixelcounts [[15; 15]; [321; 15]]%Z [[1; 1]; [0; 1]]%Z
  = Return (if decide (count_ones [[1; 1]; [0; 1]]%Z = 0) then ∅
            else {[ 15%Z := count_ones [[1; 1]; [0; 1]]%Z ]}).
Proof.
  apply (pixelcounts_single_class 2 2).
  - split; [reflexivity | repeat constructor].
  - split; [reflexivity | repeat constructor].
  - repeat constructor.
Defined.

End StatsExtraFacts.

(** ** The pixel counts of a filled raster *)

Section ParcelStatsFacts.

Import Tiler WallpaperLoop Stats ParcelStats.
Local Open Scope nat_scope.

Lemma pixel_slice2 (r : ndarray) (y h x w i j : nat) (v : Z) :
  Fill.pixel (slice2 r y h x w) i j = Some v ->
  Fill.pixel r (y + i) (x + j) = Some v.
Proof.
  unfold Fill.pixel, slice2. rewrite list_lookup_fmap.
  destruct (decide (i < h)) as [Hi|Hi].
  - rewrite lookup_take_lt, lookup_drop by assumption.
    destruct (r !! (y + i)) as [row|]; simpl; [|discriminate].
    destruct (decide (j < w)) as [Hj|Hj].
    + rewrite lookup_take_lt, lookup_drop by assumption. auto.
    + rewrite lookup_take_ge by lia. discriminate.
  - rewrite lookup_take_ge by lia. discriminate.
Qed.

Lemma zeros_has_shape (h w : nat) (a : ndarray) :
  has_shape h w a -> has_shape h w (map (map (fun _ => 0%Z)) a).
Proof.
  intros [Ha1 Ha2]. split.
  - rewrite length_map. assumption.
  - apply Forall_fmap. eapply Forall_impl; [exact Ha2|].
    intros row Hrow. simpl in Hrow |- *. rewrite length_map. assumption.
Qed.

Lemma pixel_zeros (a : ndarray) (i j : nat) (v : Z) :
  Fill.pixel (map (map (fun _ => 0%Z)) a) i j = Some v -> v = 0%Z.
Proof.
  unfold Fill.pixel. rewrite list_lookup_fmap.
  destruct (a !! i) as [row|]; simpl; [|discriminate].
  rewrite list_lookup_fmap. destruct (row !! j); simpl; [|discriminate].
  intros [= <-]. reflexivity.
Qed.

(** X20.  The pixel counts of a raster that [fill_parcel] has just made,
    taken under the same parcel on any window within the raster, hold the
    fill class alone: the result is that class with the number of mask
    pixels equal to 1, or the empty dict when the parcel touches no pixel
    of the window. *)
Theorem pixelcounts_of_filled_raster (rows cols : nat) (nodata : option Z)
    (base_window : ndarray) (touched : Fill.footprint) (fill_lulc_class : Z)
    (o : offset_dict) :
  has_shape rows cols base_window ->
  in_raster (shape0 base_window) (shape1 base_window) o ->
  let filled := Fill.fill_parcel_pixels nodata base_window touched fill_lulc_class in
  let mask :=
    rasterized_mask (window_footprint touched o)
      (slice2 filled (yoff o) (win_ysize o) (xoff o) (win_xsize o)) in
  pixelcounts_in_window touched filled o
  = Return (if decide (count_ones mask = 0) then ∅
            else {[ fill_lulc_class := count_ones mask ]}).
Proof.
  intros Hb Ho. cbv zeta.
  unfold pixelcounts_in_window, read_as_array, Fill.fill_parcel_pixels,
    Fill.create_new_lulc_pixels.
  pose proof (rasterize_has_shape rows cols touched fill_lulc_class base_window Hb)
    as Hf.
  set (filled := Fill.rasterize touched fill_lulc_class base_window) in *.
  assert (shape0 filled = shape0 base_window) as E0
    by (unfold shape0; destruct Hf as [Hf0 _], Hb as [Hb0 _]; congruence).
  assert (shape1 filled = shape1 base_window) as E1
    by (rewrite (shape1_eq rows cols _ Hf), (shape1_eq rows cols _ Hb); reflexivity).
  rewrite decide_True by (rewrite E0, E1; exact Ho).
  destruct Ho as [Hoy Hox].
  assert (shape0 base_window = rows) as Er by apply Hb.
  pose proof (shape1_le rows cols _ Hb) as Hc.
  set (array := slice2 filled (yoff o) (win_ysize o) (xoff o) (win_xsize o)).
  assert (has_shape (win_ysize o) (win_xsize o) array) as Harr
    by (apply (slice2_has_shape rows cols); [assumption | lia | lia]).
  apply (pixelcounts_one_class (win_ysize o) (win_xsize o)).
  - exact Harr.
  - apply rasterize_has_shape, zeros_has_shape. exact Harr.
  - apply Forall_forall. intros v Hv.
    apply elem_of_masked_select in Hv as (i & j & Hpa & Hpm).
    unfold rasterized_mask in Hpm. rewrite pixel_rasterize in Hpm.
    unfold window_footprint in Hpm.
    destruct (touched (yoff o + i) (xoff o + j)) eqn:T.
    + apply pixel_slice2 in Hpa. unfold filled in Hpa.
      rewrite pixel_rasterize, T in Hpa.
      destruct (Fill.pixel base_window (yoff o + i) (xoff o + j));
        simpl in Hpa; [|discriminate].
      injection Hpa as <-. reflexivity.
    + destruct (Fill.pixel (map (map (fun _ => 0%Z)) array) i j) as [z|] eqn:Ez;
        simpl in Hpm; [|discriminate].
      apply pixel_zeros in Ez. subst z. discriminate.
Qed.

Lemma pixelcounts_of_filled_raster_witness :
  let filled := Fill.fill_parcel_pixels (Some 0%Z) [[15; 7; 7]; [7; 7; 7]]%Z
                  (fun i j => Nat.eqb i 0 && Nat.eqb j 2) 15 in
  let mask :=
    rasterized_mask (window_footprint (fun i j => Nat.eqb i 0 && Nat.eqb j 2)
                       (OffsetDict 1 0 2 2))
      (slice2 filled 0 2 1 2) in
  pixelcounts_in_window (fun i j => Nat.eqb i 0 && Nat.eqb j 2) filled (OffsetDict 1 0 2 2)
  = Return (if decide (count_ones mask = 0) then ∅
            else {[ 15%Z := count_ones mask ]}).
Proof.
  apply (pixelcounts_of_filled_raster 2 3).
  - split; [reflexivity | repeat constructor].
  - unfold in_raster; simpl; lia.
Defined.

End ParcelStatsFacts.

(** ** More on the working directories *)

Section WorkdirExtraFacts.

Import Workdir JobDirs.
Local Open Scope nat_scope.

(** X21.  A parcel whose geometry type is neither 'Polygon' nor
    'MultiPolygon' makes [fill_parcel] raise [KeyError] on the lookup in
    [OGR_GEOMETRY_TYPES], after its working directory was made: the
    directory is left behind. *)
Theorem fill_parcel_unsupported_geometry_type (o : fill_outcomes) (s : dirs) :
  wkt_loads_o o = None ->
  parcel_geom_type o <> "Polygon" -> parcel_geom_type o <> "MultiPolygon" ->
  fill_parcel o s = (Raise (KeyError (parcel_geom_type o)), {[fresh s]} ∪ s).
Proof.
  intros Hload Hp Hm.
  unfold fill_parcel, call, mkdtemp, mbind, fsM_bind, Return, Raise.
  rewrite Hload. simpl.
  assert (OGR_GEOMETRY_TYPES !! parcel_geom_type o = None) as ->.
  { unfold OGR_GEOMETRY_TYPES.
    rewrite lookup_insert_ne by congruence.
    apply lookup_singleton_ne. congruence. }
  reflexivity.
Qed.

Lemma fill_parcel_unsupported_geometry_type_witness :
  fill_parcel (FillOutcomes None "Point" None None None) ∅
  = (Raise (KeyError "Point"), {[fresh (∅ : dirs)]} ∪ ∅).
Proof.
  apply (fill_parcel_unsupported_geometry_type (FillOutcomes None "Point" None None None) ∅).
  - reflexivity.
  - discriminate.
  - discriminate.
Defined.

(** X22.  Whatever its steps do, a raster operation (fill, wallpaper) never
    removes a directory that existed before it was called. *)
Theorem run_operation_keeps_existing_dirs (op : operation) (s : dirs) :
  s ⊆ (run_operation op s).2.
Proof.
  destruct op as [o|o]; simpl.
  - pose proof (fill_parcel_dirs o s) as H.
    destruct (fill_parcel o s) as [[e|[]] s']; simpl.
    + destruct (wkt_loads_o o); subst s'; [reflexivity | apply union_subseteq_r].
    + subst s'. reflexivity.
  - pose proof (wallpaper_parcel_dirs o s) as H.
    destruct (wallpaper_parcel o s) as [[e|[]] s']; simpl.
    + destruct (source_raster_info_o o); [subst s'; reflexivity | apply H].
    + subst s'. reflexivity.
Qed.

(** X23.  When the [fill_parcel] that [wallpaper_parcel] calls for its mask
    raises after making its own working directory, the exception leaves
    [wallpaper_parcel] with both directories in place: two more directories
    exist than before. *)
Theorem wallpaper_parcel_nested_failure (o : wallpaper_outcomes) (s sf : dirs)
    (e : py_exn) :
  source_raster_info_o o = None ->
  wkt_loads_o (fill_o o) = None ->
  fill_parcel (fill_o o) ({[fresh s]} ∪ s) = (Raise e, sf) ->
  wallpaper_parcel o s = (Raise e, sf) /\
  sf = {[fresh ({[fresh s]} ∪ s : dirs)]} ∪ ({[fresh s]} ∪ s) /\
  size sf = size s + 2.
Proof.
  intros Hsrc Hload Hfill.
  pose proof (fill_parcel_dirs (fill_o o) ({[fresh s]} ∪ s)) as Hd.
  rewrite Hfill, Hload in Hd. unfold Raise in Hd. split; [|split].
  - unfold wallpaper_parcel, mbind, fsM_bind, call at 1, mkdtemp at 1.
    rewrite Hsrc. unfold Return. rewrite Hfill. reflexivity.
  - exact Hd.
  - subst sf. rewrite !size_union, !size_singleton.
    + lia.
    + apply disjoint_singleton_l, is_fresh.
    + apply disjoint_singleton_l, is_fresh.
Qed.

Lemma wallpaper_parcel_nested_failure_witness :
  let o := WallpaperOutcomes None
             (FillOutcomes None "Polygon" None None (Some (LibraryError "rasterize")))
             None None None None None None None in
  let sf : dirs := {[fresh ({[fresh (∅ : dirs)]} ∪ ∅ : dirs)]} ∪ ({[fresh (∅ : dirs)]} ∪ ∅) in
  wallpaper_parcel o ∅ = (Raise (LibraryError "rasterize"), sf) /\
  sf = {[fresh ({[fresh (∅ : dirs)]} ∪ ∅ : dirs)]} ∪ ({[fresh (∅ : dirs)]} ∪ ∅) /\
  size sf = size (∅ : dirs) + 2.
Proof.
  apply (wallpaper_parcel_nested_failure _ ∅).
  - reflexivity.
  - reflexivity.
  - vm_compute. reflexivity.
Defined.

(** [wallpaper_parcel] removes no directory that existed when it was
    called. *)
Lemma wallpaper_parcel_keeps (o : wallpaper_outcomes) (s : dirs) :
  s ⊆ (wallpaper_parcel o s).2.
Proof.
  pose proof (wallpaper_parcel_dirs o s) as H.
  destruct (wallpaper_parcel o s) as [[e|[]] s']; simpl.
  - destruct (source_raster_info_o o); [subst s'; reflexivity | apply H].
  - subst s'. reflexivity.
Qed.

(** X24.  In the wallpaper branch of [do_work]: when the branch returns,
    its temporary directory was made and [wallpaper_parcel] returned, and
    the directories are those from before the job, together with the
    temporary directory in case its [rmtree] raised (the [OSError] is logged
    and the job goes on).  When the branch raises, no directory from before
    is removed, and the temporary directory, if it was made, is left: the
    [rmtree] of the branch is skipped. *)
Theorem wallpaper_job_dirs (mkdtemp_o : option py_exn) (o : wallpaper_outcomes)
    (rmtree_raises : bool) (s s' : dirs) (r : result unit) :
  wallpaper_job mkdtemp_o o rmtree_raises s = (r, s') ->
  match r with
  | inr _ =>
      mkdtemp_o = None /\
      (exists s1, wallpaper_parcel o ({[fresh s]} ∪ s) = (Return (), s1)) /\
      s' = (if rmtree_raises then {[fresh s]} ∪ s else s)
  | inl _ => s ⊆ s' /\ (mkdtemp_o = None -> fresh s ∈ s')
  end.
Proof.
  intros Hrun. unfold wallpaper_job, mbind, fsM_bind in Hrun.
  destruct mkdtemp_o as [e|]; simpl in Hrun.
  - apply pair_equal_spec in Hrun as [<- <-]. split; [reflexivity | discriminate].
  - unfold mkdtemp, Return in Hrun.
    pose proof (wallpaper_parcel_dirs o ({[fresh s]} ∪ s)) as Hd.
    assert (s ⊆ (wallpaper_parcel o ({[fresh s]} ∪ s)).2
            /\ fresh s ∈ (wallpaper_parcel o ({[fresh s]} ∪ s)).2) as [Hsub Hin].
    { pose proof (wallpaper_parcel_keeps o ({[fresh s]} ∪ s)) as Hk. split.
      - etrans; [apply union_subseteq_r | exact Hk].
      - apply Hk, elem_of_union_l, elem_of_singleton. reflexivity. }
    destruct (wallpaper_parcel o ({[fresh s]} ∪ s)) as [[e|[]] s1].
    + apply pair_equal_spec in Hrun as [<- <-]. simpl in Hsub, Hin.
      split; [exact Hsub | auto].
    + subst s1. unfold rmtree_logged, rmtree in Hrun.
      destruct rmtree_raises.
      * apply pair_equal_spec in Hrun as [<- <-].
        split; [reflexivity|]. split; [eexists; reflexivity | reflexivity].
      * rewrite decide_True in Hrun by apply fresh_in_union.
        apply pair_equal_spec in Hrun as [<- <-]. simpl.
        split; [reflexivity|]. split; [eexists; reflexivity | apply remove_fresh].
Qed.

Lemma wallpaper_job_dirs_witness :
  match (Return () : result unit) with
  | inr _ =>
      (None : option py_exn) = None /\
      (exists s1, wallpaper_parcel wallpaper_all_ok ({[fresh (∅ : dirs)]} ∪ ∅)
                  = (Return (), s1)) /\
      ({[fresh (∅ : dirs)]} ∪ ∅ : dirs)
      = (if true then {[fresh (∅ : dirs)]} ∪ ∅ else ∅)
  | inl _ =>
      (∅ : dirs) ⊆ ({[fresh (∅ : dirs)]} ∪ ∅ : dirs) /\
      ((None : option py_exn) = None
       -> fresh (∅ : dirs) ∈ ({[fresh (∅ : dirs)]} ∪ ∅ : dirs))
  end.
Proof.
  apply (wallpaper_job_dirs None wallpaper_all_ok true ∅
           ({[fresh (∅ : dirs)]} ∪ ∅) (Return ())).
  vm_compute. reflexivity.
Defined.

End WorkdirExtraFacts.

(** ** The pixel window *)

Section PixelWindowFacts.

Import PixelWindow.
Local Open Scope Q_scope.

Lemma py_min_spec (a b : Q) :
  py_min a b <= a /\ py_min a b <= b /\ (py_min a b = a \/ py_min a b = b).
Proof.
  unfold py_min. destruct (Qlt_le_dec b a) as [H|H].
  - repeat split; [lra | lra | right; reflexivity].
  - repeat split; [lra | lra | left; reflexivity].
Qed.

Lemma py_max_spec (a b : Q) :
  a <= py_max a b /\ b <= py_max a b /\ (py_max a b = a \/ py_max a b = b).
Proof.
  unfold py_max. destruct (Qlt_le_dec a b) as [H|H].
  - repeat split; [lra | lra | right; reflexivity].
  - repeat split; [lra | lra | left; reflexivity].
Qed.

Lemma floor_ceiling_cover (a b : Q) :
  smallest_cover (Qfloor (py_min a b))
                 (Qceiling (py_max a b) - Qfloor (py_min a b))%Z a b.
Proof.
  destruct (py_min_spec a b) as (Hma & Hmb & Hm).
  destruct (py_max_spec a b) as (HMa & HMb & HM).
  pose proof (Qfloor_le (py_min a b)) as Hf.
  pose proof (Qlt_floor (py_min a b)) as Hf'.
  pose proof (Qle_ceiling (py_max a b)) as Hc.
  pose proof (Qceiling_lt (py_max a b)) as Hc'.
  unfold smallest_cover.
  replace (Qfloor (py_min a b) + (Qceiling (py_max a b) - Qfloor (py_min a b)))%Z
    with (Qceiling (py_max a b)) by lia.
  replace (Qceiling (py_max a b) - 1)%Z with (Qceiling (py_max a b) + -1)%Z in Hc' by lia.
  replace (Qceiling (py_max a b) - 1)%Z with (Qceiling (py_max a b) + -1)%Z by lia.
  repeat split.
  - apply Zle_minus_le_0. rewrite Zle_Qle. lra.
  - lra.
  - lra.
  - lra.
  - lra.
  - destruct Hm as [E|E]; [left | right];
      (apply (Qle_lt_trans _ (py_min a b)); [rewrite E; apply Qle_refl | exact Hf']).
  - destruct HM as [E|E]; [left | right];
      (apply (Qlt_le_trans _ (py_max a b)); [exact Hc' | rewrite E; apply Qle_refl]).
Qed.

(** X25.  The window that [pixelcounts_under_parcel] reads is rounded
    outwards: along each axis it starts at the floor of the smaller pixel
    coordinate of the two corners and ends at the ceiling of the larger
    one, so its size is never negative and it is the smallest whole-pixel
    window that contains both corners. *)
Theorem pixel_window_rounds_outward (_x0 _y0 _x1 _y1 : Q) :
  let '(xoff, yoff, xsize, ysize) := pixel_window _x0 _y0 _x1 _y1 in
  smallest_cover xoff xsize _x0 _x1 /\ smallest_cover yoff ysize _y0 _y1.
Proof.
  unfold pixel_window. cbv zeta. split; apply floor_ceiling_cover.
Qed.

End PixelWindowFacts.

(** ** What a job's payload holds *)

Section JobResultFacts.

Import Dispatch.

Variable ops : operations.
Variables scenarios_dir model_outputs_dir : string.

(** As [bind_returns], with what the first computation returned. *)
Lemma bind_returns_from {A B : Type} (P : B -> Prop) (m : traced A)
    (f : A -> traced B) :
  (forall a t1, m = (t1, inr a) -> forall t d, f a = (t, inr d) -> P d) ->
  forall t d, (m ≫= f) = (t, inr d) -> P d.
Proof.
  intros Hf t d. unfold mbind, traced_bind.
  destruct m as [t1 [e|a]]; [discriminate|].
  destruct (f a) as [t2 r] eqn:E. intros [= _ ->].
  exact (Hf a t1 eq_refl t2 d E).
Qed.

Lemma getitem_returns {V : Type} (d : gmap string V) (k : string) (t : list string)
    (v : V) :
  getitem d k = (t, inr v) -> d !! k = Some v.
Proof.
  unfold getitem. destruct (d !! k); intros [= _ <-] || intros [=]. reflexivity.
Qed.

Lemma run_returns {A : Type} (name : string) (r : result A) (t : list string) (a : A) :
  run name r = (t, inr a) -> r = Return a.
Proof. unfold run. intros [= _ ->]. reflexivity. Qed.

(** X26.  When a crop, fill or wallpaper job succeeds, the path in its
    payload is scenarios_dir/scenario_id/scenario_id_jobtype.tif, and the
    pixel counts in its payload are those that [pixelcounts_under_parcel]
    returned for the job's parcel on the raster at that path: the raster
    the job has just written, not the base raster. *)
Theorem scenario_job_result (j : job) (t : list string) (data : gmap string pyval) :
  job_type j ∈ [JOBTYPE_FILL; JOBTYPE_WALLPAPER; JOBTYPE_CROP] ->
  try_body ops scenarios_dir model_outputs_dir j = (t, inr data) ->
  exists scenario_id wkt stats,
    server_attrs j !! "scenario_id" = Some scenario_id /\
    job_args j !! "target_parcel_wkt" = Some wkt /\
    let result_path :=
      (scenarios_dir +:+ "/" +:+ scenario_id) +:+ "/" +:+ scenario_id +:+ "_"
        +:+ job_type j +:+ ".tif" in
    op_pixelcounts_under_parcel ops wkt result_path = Return stats /\
    data = {[ "result" := PDict [("lulc_path", FStr result_path);
                                 ("lulc_stats", FStats stats)] ]}.
Proof.
  intros Hty Hbody. unfold try_body in Hbody. cbv zeta in Hbody.
  rewrite decide_True in Hbody by assumption.
  revert t data Hbody.
  apply bind_returns_from. intros sid t1 Hsid%getitem_returns.
  apply bind_returns. intros _.
  apply bind_returns. intros _.
  apply bind_returns. intros _.
  apply bind_returns_from. intros wkt t2 Hwkt%getitem_returns.
  apply bind_returns_from. intros stats t3 Hstats%run_returns.
  intros t d [= _ <-].
  exists sid, wkt, stats. repeat split; assumption.
Qed.

(** X27.  A model-run job that names a model without an entry in
    [INVEST_MODELS] is reported as failed to the 'invest' endpoint, and
    nothing is started for it. *)
Theorem unknown_invest_model_reported_failed (j : job) (invest_model scenario_id : string) :
  job_type j = JOBTYPE_INVEST ->
  job_args j !! "invest_model" = Some invest_model ->
  job_args j !! "scenario_id" = Some scenario_id ->
  invest_model ∉ INVEST_MODELS ->
  process_job ops scenarios_dir model_outputs_dir j
  = Iteration [] (failure_payload j) (Posted "invest" (failure_payload j)).
Proof.
  intros Hty Hmodel Hsid Hunknown.
  unfold process_job, try_body. cbv zeta. rewrite Hty.
  rewrite decide_False
    by (rewrite !elem_of_cons, elem_of_nil; intros [E|[E|[E|[]]]]; discriminate E).
  rewrite decide_False by discriminate.
  rewrite decide_True by reflexivity.
  unfold mbind, traced_bind, getitem, Return, Raise. rewrite Hmodel, Hsid.
  cbn beta iota. rewrite decide_False by assumption. reflexivity.
Qed.

End JobResultFacts.

Section JobResultWitnesses.

Import Dispatch.

Lemma scenario_job_result_witness :
  let j := Job JOBTYPE_CROP {[ "job_id" := "1"; "scenario_id" := "7" ]}
               {[ "target_parcel_wkt" := "P" ]} in
  let data : gmap string pyval :=
    {[ "result" := PDict [("lulc_path", FStr "scenarios/7/7_lulc_crop.tif");
                          ("lulc_stats", FStats ∅)] ]} in
  exists scenario_id wkt stats,
    server_attrs j !! "scenario_id" = Some scenario_id /\
    job_args j !! "target_parcel_wkt" = Some wkt /\
    let result_path :=
      ("scenarios" +:+ "/" +:+ scenario_id) +:+ "/" +:+ scenario_id +:+ "_"
        +:+ job_type j +:+ ".tif" in
    op_pixelcounts_under_parcel ok_operations wkt result_path = Return stats /\
    data = {[ "result" := PDict [("lulc_path", FStr result_path);
                                 ("lulc_stats", FStats stats)] ]}.
Proof.
  apply (scenario_job_result ok_operations "scenarios" "model_outputs"
           (Job JOBTYPE_CROP {[ "job_id" := "1"; "scenario_id" := "7" ]}
                {[ "target_parcel_wkt" := "P" ]})
           ["makedirs"; "_create_new_lulc"; "pixelcounts_under_parcel"]).
  - apply list_elem_of_further, list_elem_of_further, list_elem_of_here.
  - vm_compute. reflexivity.
Defined.

Lemma unknown_invest_model_reported_failed_witness :
  let j := Job JOBTYPE_INVEST {[ "job_id" := "1" ]}
               {[ "invest_model" := "pollination"; "scenario_id" := "7" ]} in
  process_job ok_operations "scenarios" "model_outputs" j
  = Iteration [] (failure_payload j) (Posted "invest" (failure_payload j)).
Proof.
  apply (unknown_invest_model_reported_failed ok_operations "scenarios" "model_outputs"
           _ "pollination" "7").
  - reflexivity.
  - reflexivity.
  - reflexivity.
  - vm_compute. intros H. discriminate H.
Defined.

End JobResultWitnesses.
